(** * The Modbus polling driver (IO/Drivers/Modbus.cpp)

    A shallow embedding of [IO::Drivers::Modbus]: the configuration
    setters, the connection lifecycle ([open], [close], [isOpen]), the poll
    timer slots and the result formatter.  The driver object is a record
    holding the C++ member fields; every member function is a function on
    that record.  Everything the C++ code does to its surroundings (signals
    raised with [Q_EMIT], timer calls, log lines, message boxes, calls on the
    Qt Modbus client, deferred deletions) is appended, in program order, to
    the [trace] field; the [QSettings] store is a finite map.

    Fixed-width unsigned integers ([quint8], [quint16]) are values of [N];
    the only arithmetic on them in this file that can leave the type's
    range ([code + 1] in [setFunctionCode]) has its wrap-around written
    out.  [qint32] is [Z]. *)

From Stdlib Require Import Ascii.
From stdpp Require Import gmap strings list pretty.

Open Scope N_scope.

(** ** Qt value types used by the driver *)

(** [QModbusDataUnit::RegisterType]. *)
Inductive RegisterType :=
  | Invalid
  | DiscreteInputs
  | Coils
  | InputRegisters
  | HoldingRegisters.

(** [QModbusDevice::State]. *)
Inductive DeviceState :=
  | UnconnectedState
  | ConnectingState
  | ConnectedState
  | ClosingState.

(** [QModbusDevice::Error]. *)
Inductive DeviceError :=
  | NoError
  | ReadError
  | WriteError
  | ConnectionError
  | ConfigurationError
  | TimeoutError
  | ProtocolError
  | ReplyAbortedError
  | UnknownError.

(** [QSerialPort::Parity]. *)
Inductive Parity :=
  | NoParity
  | EvenParity
  | OddParity
  | SpaceParity
  | MarkParity.

(** The values the driver stores in [QSettings] and hands to
    [setConnectionParameter]: a [QVariant] holding an unsigned integer, a
    signed integer or a string. *)
Inductive QVariant :=
  | VUInt (n : N)
  | VInt (z : Z)
  | VString (s : string).

#[global] Instance RegisterType_eq_dec : EqDecision RegisterType.
Proof. solve_decision. Defined.
#[global] Instance DeviceState_eq_dec : EqDecision DeviceState.
Proof. solve_decision. Defined.
#[global] Instance DeviceError_eq_dec : EqDecision DeviceError.
Proof. solve_decision. Defined.
#[global] Instance Parity_eq_dec : EqDecision Parity.
Proof. solve_decision. Defined.
#[global] Instance QVariant_eq_dec : EqDecision QVariant.
Proof. solve_decision. Defined.

(** [QModbusDataUnit]: a register type, a start address and the values read,
    each a [quint16], in ascending address order.  [valueCount] is the
    number of values held and [value i] is the [i]-th one, [0] past the
    end (as [QList::value] answers). *)
Record QModbusDataUnit := {
  registerType : RegisterType;
  unitStartAddress : N;
  values : list N
}.

Definition valueCount (data : QModbusDataUnit) : nat := length (values data).

Definition value (data : QModbusDataUnit) (i : nat) : N :=
  nth i (values data) 0.

(** The invariant of the element type: every value fits 16 bits. *)
Definition quint16_values (vs : list N) : Prop := Forall (λ v, v < 65536) vs.

(** ** The result formatter *)

Module Formatter.

(** [QString::number] on an unsigned value: its decimal numeral, with no
    sign, no padding and no leading zero.  This is stdpp's decimal printer
    on [N]. *)
Definition QString_number (v : N) : string := pretty v.

(** [QStringList::join]. *)
Definition join (sep : string) (parts : list string) : string :=
  String.concat sep parts.

(** The loop [for (int i = 0; i < data.valueCount(); ++i)
    values.append(QString::number(data.value(i)))], which both branches of
    [formatModbusData] run. *)
Definition collect (data : QModbusDataUnit) : list string :=
  (λ i, QString_number (value data i)) <$> seq 0 (valueCount data).

(** The branch taken for [Coils] and [DiscreteInputs]. *)
Definition formatCoils (data : QModbusDataUnit) : string :=
  let values := collect data in
  join "," values.

(** The branch taken for every other register type. *)
Definition formatRegisters (data : QModbusDataUnit) : string :=
  let values := collect data in
  join "," values.

(** The line feed character, the ["\n"] of the source. *)
Definition LF : ascii := ascii_of_nat 10.

(** [Modbus::formatModbusData].  The text is ASCII (digits, commas, a line
    feed), so [toUtf8] leaves it as it is and the byte array is the string. *)
Definition formatModbusData (data : QModbusDataUnit) : string :=
  let result :=
    if bool_decide (registerType data = Coils)
       || bool_decide (registerType data = DiscreteInputs)
    then formatCoils data
    else formatRegisters data in
  result +:+ String LF "".

Definition is_digit (c : ascii) : bool :=
  let n := N_of_ascii c in (48 <=? n) && (n <=? 57).

Fixpoint string_forall (p : ascii → bool) (s : string) : bool :=
  match s with
  | EmptyString => true
  | String c s' => p c && string_forall p s'
  end.

(** How many times a character occurs in a string. *)
Fixpoint occurrences (c : ascii) (s : string) : nat :=
  match s with
  | EmptyString => 0%nat
  | String d s' => ((if Ascii.eqb c d then 1 else 0) + occurrences c s')%nat
  end.

End Formatter.

(** ** The driver's surroundings *)

(** [Modbus::ModbusMode], stored in a [quint8]. *)
Definition RTU : N := 0.
Definition TCP : N := 1.

(** The signals of the driver (Modbus.h) and the two it inherits from
    [HAL_Driver]: [configurationChanged] and [dataReceived]. *)
Inductive Signal :=
  | languageChanged
  | modbusModeChanged
  | slaveAddressChanged
  | functionCodeChanged
  | startAddressChanged
  | registerCountChanged
  | pollIntervalChanged
  | tcpHostChanged
  | tcpPortChanged
  | serialPortIndexChanged
  | baudRateChanged
  | parityChanged
  | availablePortsChanged
  | connectionError (error : string)
  | configurationChanged
  | dataReceived (data : string).

(** [QMessageBox::Icon]. *)
Inductive Icon := NoIcon | Information | Warning | Critical | Question.

(** [QModbusDevice::ConnectionParameter]. *)
Inductive ConnectionParameter :=
  | SerialPortNameParameter
  | SerialParityParameter
  | SerialBaudRateParameter
  | SerialDataBitsParameter
  | SerialStopBitsParameter
  | NetworkPortParameter
  | NetworkAddressParameter.

(** Which client class [open] instantiated. *)
Inductive ClientKind := RtuSerialClient | TcpClient.

(** The Modbus client object the driver owns: its connection state, the
    connection parameters in the order they were set, its timeout and retry
    count, its last error text, and whether its [stateChanged] and
    [errorOccurred] signals are connected to the driver's slots. *)
Record QModbusClient := {
  clientKind : ClientKind;
  clientState : DeviceState;
  clientParameters : list (ConnectionParameter * QVariant);
  clientTimeout : N;
  clientRetries : N;
  clientErrorString : string;
  clientSlotsConnected : bool
}.

(** A [QModbusReply], as far as the driver looks at it. *)
Record QModbusReply := {
  replyId : nat;
  replyFinished : bool;
  replyError : DeviceError;
  replyErrorString : string;
  replyResult : QModbusDataUnit
}.

(** [QSerialPortInfo]. *)
Record QSerialPortInfo := {
  portName : string;
  description : string;
  systemLocation : string;
  portIsNull : bool
}.

(** The poll timer. *)
Record QTimer := {
  isActive : bool;
  timerInterval : N
}.

(** What the driver does to the world, in program order. *)
Inductive Effect :=
  | Emit (sig : Signal)
  | TimerStart (msec : N)
  | TimerStop
  | qWarning (parts : list string)
  | qDebug (parts : list string)
  | showMessageBox (title text : string) (icon : Icon)
  | DisconnectDevice
  | ConnectDevice (client : QModbusClient)
  | SendReadRequest (type : RegisterType) (start count server : N)
  | ConnectFinished (reply : nat)
  | DeleteReply (reply : nat)
  | DeleteLaterReply (reply : nat)
  | DeleteLaterClient.

#[global] Instance Signal_eq_dec : EqDecision Signal.
Proof. solve_decision. Defined.
#[global] Instance Icon_eq_dec : EqDecision Icon.
Proof. solve_decision. Defined.

(** [tr]: with no translation installed the source text is returned. *)
Definition tr (s : string) : string := s.

(** ** The driver object *)

Record Modbus := {
  m_modbusClient : option QModbusClient;
  m_modbusMode : N;
  m_slaveAddress : N;
  m_functionCode : N;
  m_startAddress : N;
  m_registerCount : N;
  m_pollInterval : N;
  m_tcpHost : string;
  m_tcpPort : N;
  m_serialPortIndex : N;
  m_baudRate : Z;
  m_parity : Parity;
  m_parityIndex : N;
  m_pollTimer : QTimer;
  m_deviceNames : list string;
  m_deviceLocations : list string;
  m_settings : gmap string QVariant;
  trace : list Effect
}.

(** Assignments to single members; every other member keeps its value. *)
Definition set_m_modbusClient (v : option QModbusClient) (s : Modbus) : Modbus :=
  {| m_modbusClient := v; m_modbusMode := m_modbusMode s;
     m_slaveAddress := m_slaveAddress s; m_functionCode := m_functionCode s;
     m_startAddress := m_startAddress s;
     m_registerCount := m_registerCount s;
     m_pollInterval := m_pollInterval s; m_tcpHost := m_tcpHost s;
     m_tcpPort := m_tcpPort s; m_serialPortIndex := m_serialPortIndex s;
     m_baudRate := m_baudRate s; m_parity := m_parity s;
     m_parityIndex := m_parityIndex s; m_pollTimer := m_pollTimer s;
     m_deviceNames := m_deviceNames s;
     m_deviceLocations := m_deviceLocations s; m_settings := m_settings s;
     trace := trace s |}.
Definition set_m_modbusMode (v : N) (s : Modbus) : Modbus :=
  {| m_modbusClient := m_modbusClient s; m_modbusMode := v;
     m_slaveAddress := m_slaveAddress s; m_functionCode := m_functionCode s;
     m_startAddress := m_startAddress s;
     m_registerCount := m_registerCount s;
     m_pollInterval := m_pollInterval s; m_tcpHost := m_tcpHost s;
     m_tcpPort := m_tcpPort s; m_serialPortIndex := m_serialPortIndex s;
     m_baudRate := m_baudRate s; m_parity := m_parity s;
     m_parityIndex := m_parityIndex s; m_pollTimer := m_pollTimer s;
     m_deviceNames := m_deviceNames s;
     m_deviceLocations := m_deviceLocations s; m_settings := m_settings s;
     trace := trace s |}.
Definition set_m_slaveAddress (v : N) (s : Modbus) : Modbus :=
  {| m_modbusClient := m_modbusClient s; m_modbusMode := m_modbusMode s;
     m_slaveAddress := v; m_functionCode := m_functionCode s;
     m_startAddress := m_startAddress s;
     m_registerCount := m_registerCount s;
     m_pollInterval := m_pollInterval s; m_tcpHost := m_tcpHost s;
     m_tcpPort := m_tcpPort s; m_serialPortIndex := m_serialPortIndex s;
     m_baudRate := m_baudRate s; m_parity := m_parity s;
     m_parityIndex := m_parityIndex s; m_pollTimer := m_pollTimer s;
     m_deviceNames := m_deviceNames s;
     m_deviceLocations := m_deviceLocations s; m_settings := m_settings s;
     trace := trace s |}.
Definition set_m_functionCode (v : N) (s : Modbus) : Modbus :=
  {| m_modbusClient := m_modbusClient s; m_modbusMode := m_modbusMode s;
     m_slaveAddress := m_slaveAddress s; m_functionCode := v;
     m_startAddress := m_startAddress s;
     m_registerCount := m_registerCount s;
     m_pollInterval := m_pollInterval s; m_tcpHost := m_tcpHost s;
     m_tcpPort := m_tcpPort s; m_serialPortIndex := m_serialPortIndex s;
     m_baudRate := m_baudRate s; m_parity := m_parity s;
     m_parityIndex := m_parityIndex s; m_pollTimer := m_pollTimer s;
     m_deviceNames := m_deviceNames s;
     m_deviceLocations := m_deviceLocations s; m_settings := m_settings s;
     trace := trace s |}.
Definition set_m_startAddress (v : N) (s : Modbus) : Modbus :=
  {| m_modbusClient := m_modbusClient s; m_modbusMode := m_modbusMode s;
     m_slaveAddress := m_slaveAddress s; m_functionCode := m_functionCode s;
     m_startAddress := v; m_registerCount := m_registerCount s;
     m_pollInterval := m_pollInterval s; m_tcpHost := m_tcpHost s;
     m_tcpPort := m_tcpPort s; m_serialPortIndex := m_serialPortIndex s;
     m_baudRate := m_baudRate s; m_parity := m_parity s;
     m_parityIndex := m_parityIndex s; m_pollTimer := m_pollTimer s;
     m_deviceNames := m_deviceNames s;
     m_deviceLocations := m_deviceLocations s; m_settings := m_settings s;
     trace := trace s |}.
Definition set_m_registerCount (v : N) (s : Modbus) : Modbus :=
  {| m_modbusClient := m_modbusClient s; m_modbusMode := m_modbusMode s;
     m_slaveAddress := m_slaveAddress s; m_functionCode := m_functionCode s;
     m_startAddress := m_startAddress s; m_registerCount := v;
     m_pollInterval := m_pollInterval s; m_tcpHost := m_tcpHost s;
     m_tcpPort := m_tcpPort s; m_serialPortIndex := m_serialPortIndex s;
     m_baudRate := m_baudRate s; m_parity := m_parity s;
     m_parityIndex := m_parityIndex s; m_pollTimer := m_pollTimer s;
     m_deviceNames := m_deviceNames s;
     m_deviceLocations := m_deviceLocations s; m_settings := m_settings s;
     trace := trace s |}.
Definition set_m_pollInterval (v : N) (s : Modbus) : Modbus :=
  {| m_modbusClient := m_modbusClient s; m_modbusMode := m_modbusMode s;
     m_slaveAddress := m_slaveAddress s; m_functionCode := m_functionCode s;
     m_startAddress := m_startAddress s;
     m_registerCount := m_registerCount s; m_pollInterval := v;
     m_tcpHost := m_tcpHost s; m_tcpPort := m_tcpPort s;
     m_serialPortIndex := m_serialPortIndex s; m_baudRate := m_baudRate s;
     m_parity := m_parity s; m_parityIndex := m_parityIndex s;
     m_pollTimer := m_pollTimer s; m_deviceNames := m_deviceNames s;
     m_deviceLocations := m_deviceLocations s; m_settings := m_settings s;
     trace := trace s |}.
Definition set_m_tcpHost (v : string) (s : Modbus) : Modbus :=
  {| m_modbusClient := m_modbusClient s; m_modbusMode := m_modbusMode s;
     m_slaveAddress := m_slaveAddress s; m_functionCode := m_functionCode s;
     m_startAddress := m_startAddress s;
     m_registerCount := m_registerCount s;
     m_pollInterval := m_pollInterval s; m_tcpHost := v;
     m_tcpPort := m_tcpPort s; m_serialPortIndex := m_serialPortIndex s;
     m_baudRate := m_baudRate s; m_parity := m_parity s;
     m_parityIndex := m_parityIndex s; m_pollTimer := m_pollTimer s;
     m_deviceNames := m_deviceNames s;
     m_deviceLocations := m_deviceLocations s; m_settings := m_settings s;
     trace := trace s |}.
Definition set_m_tcpPort (v : N) (s : Modbus) : Modbus :=
  {| m_modbusClient := m_modbusClient s; m_modbusMode := m_modbusMode s;
     m_slaveAddress := m_slaveAddress s; m_functionCode := m_functionCode s;
     m_startAddress := m_startAddress s;
     m_registerCount := m_registerCount s;
     m_pollInterval := m_pollInterval s; m_tcpHost := m_tcpHost s;
     m_tcpPort := v; m_serialPortIndex := m_serialPortIndex s;
     m_baudRate := m_baudRate s; m_parity := m_parity s;
     m_parityIndex := m_parityIndex s; m_pollTimer := m_pollTimer s;
     m_deviceNames := m_deviceNames s;
     m_deviceLocations := m_deviceLocations s; m_settings := m_settings s;
     trace := trace s |}.
Definition set_m_serialPortIndex (v : N) (s : Modbus) : Modbus :=
  {| m_modbusClient := m_modbusClient s; m_modbusMode := m_modbusMode s;
     m_slaveAddress := m_slaveAddress s; m_functionCode := m_functionCode s;
     m_startAddress := m_startAddress s;
     m_registerCount := m_registerCount s;
     m_pollInterval := m_pollInterval s; m_tcpHost := m_tcpHost s;
     m_tcpPort := m_tcpPort s; m_serialPortIndex := v;
     m_baudRate := m_baudRate s; m_parity := m_parity s;
     m_parityIndex := m_parityIndex s; m_pollTimer := m_pollTimer s;
     m_deviceNames := m_deviceNames s;
     m_deviceLocations := m_deviceLocations s; m_settings := m_settings s;
     trace := trace s |}.
Definition set_m_baudRate (v : Z) (s : Modbus) : Modbus :=
  {| m_modbusClient := m_modbusClient s; m_modbusMode := m_modbusMode s;
     m_slaveAddress := m_slaveAddress s; m_functionCode := m_functionCode s;
     m_startAddress := m_startAddress s;
     m_registerCount := m_registerCount s;
     m_pollInterval := m_pollInterval s; m_tcpHost := m_tcpHost s;
     m_tcpPort := m_tcpPort s; m_serialPortIndex := m_serialPortIndex s;
     m_baudRate := v; m_parity := m_parity s;
     m_parityIndex := m_parityIndex s; m_pollTimer := m_pollTimer s;
     m_deviceNames := m_deviceNames s;
     m_deviceLocations := m_deviceLocations s; m_settings := m_settings s;
     trace := trace s |}.
Definition set_m_parity (v : Parity) (s : Modbus) : Modbus :=
  {| m_modbusClient := m_modbusClient s; m_modbusMode := m_modbusMode s;
     m_slaveAddress := m_slaveAddress s; m_functionCode := m_functionCode s;
     m_startAddress := m_startAddress s;
     m_registerCount := m_registerCount s;
     m_pollInterval := m_pollInterval s; m_tcpHost := m_tcpHost s;
     m_tcpPort := m_tcpPort s; m_serialPortIndex := m_serialPortIndex s;
     m_baudRate := m_baudRate s; m_parity := v;
     m_parityIndex := m_parityIndex s; m_pollTimer := m_pollTimer s;
     m_deviceNames := m_deviceNames s;
     m_deviceLocations := m_deviceLocations s; m_settings := m_settings s;
     trace := trace s |}.
Definition set_m_parityIndex (v : N) (s : Modbus) : Modbus :=
  {| m_modbusClient := m_modbusClient s; m_modbusMode := m_modbusMode s;
     m_slaveAddress := m_slaveAddress s; m_functionCode := m_functionCode s;
     m_startAddress := m_startAddress s;
     m_registerCount := m_registerCount s;
     m_pollInterval := m_pollInterval s; m_tcpHost := m_tcpHost s;
     m_tcpPort := m_tcpPort s; m_serialPortIndex := m_serialPortIndex s;
     m_baudRate := m_baudRate s; m_parity := m_parity s; m_parityIndex := v;
     m_pollTimer := m_pollTimer s; m_deviceNames := m_deviceNames s;
     m_deviceLocations := m_deviceLocations s; m_settings := m_settings s;
     trace := trace s |}.
Definition set_m_pollTimer (v : QTimer) (s : Modbus) : Modbus :=
  {| m_modbusClient := m_modbusClient s; m_modbusMode := m_modbusMode s;
     m_slaveAddress := m_slaveAddress s; m_functionCode := m_functionCode s;
     m_startAddress := m_startAddress s;
     m_registerCount := m_registerCount s;
     m_pollInterval := m_pollInterval s; m_tcpHost := m_tcpHost s;
     m_tcpPort := m_tcpPort s; m_serialPortIndex := m_serialPortIndex s;
     m_baudRate := m_baudRate s; m_parity := m_parity s;
     m_parityIndex := m_parityIndex s; m_pollTimer := v;
     m_deviceNames := m_deviceNames s;
     m_deviceLocations := m_deviceLocations s; m_settings := m_settings s;
     trace := trace s |}.
Definition set_m_deviceNames (v : list string) (s : Modbus) : Modbus :=
  {| m_modbusClient := m_modbusClient s; m_modbusMode := m_modbusMode s;
     m_slaveAddress := m_slaveAddress s; m_functionCode := m_functionCode s;
     m_startAddress := m_startAddress s;
     m_registerCount := m_registerCount s;
     m_pollInterval := m_pollInterval s; m_tcpHost := m_tcpHost s;
     m_tcpPort := m_tcpPort s; m_serialPortIndex := m_serialPortIndex s;
     m_baudRate := m_baudRate s; m_parity := m_parity s;
     m_parityIndex := m_parityIndex s; m_pollTimer := m_pollTimer s;
     m_deviceNames := v; m_deviceLocations := m_deviceLocations s;
     m_settings := m_settings s; trace := trace s |}.
Definition set_m_deviceLocations (v : list string) (s : Modbus) : Modbus :=
  {| m_modbusClient := m_modbusClient s; m_modbusMode := m_modbusMode s;
     m_slaveAddress := m_slaveAddress s; m_functionCode := m_functionCode s;
     m_startAddress := m_startAddress s;
     m_registerCount := m_registerCount s;
     m_pollInterval := m_pollInterval s; m_tcpHost := m_tcpHost s;
     m_tcpPort := m_tcpPort s; m_serialPortIndex := m_serialPortIndex s;
     m_baudRate := m_baudRate s; m_parity := m_parity s;
     m_parityIndex := m_parityIndex s; m_pollTimer := m_pollTimer s;
     m_deviceNames := m_deviceNames s; m_deviceLocations := v;
     m_settings := m_settings s; trace := trace s |}.
Definition set_m_settings (v : gmap string QVariant) (s : Modbus) : Modbus :=
  {| m_modbusClient := m_modbusClient s; m_modbusMode := m_modbusMode s;
     m_slaveAddress := m_slaveAddress s; m_functionCode := m_functionCode s;
     m_startAddress := m_startAddress s;
     m_registerCount := m_registerCount s;
     m_pollInterval := m_pollInterval s; m_tcpHost := m_tcpHost s;
     m_tcpPort := m_tcpPort s; m_serialPortIndex := m_serialPortIndex s;
     m_baudRate := m_baudRate s; m_parity := m_parity s;
     m_parityIndex := m_parityIndex s; m_pollTimer := m_pollTimer s;
     m_deviceNames := m_deviceNames s;
     m_deviceLocations := m_deviceLocations s; m_settings := v;
     trace := trace s |}.
Definition set_trace (v : list Effect) (s : Modbus) : Modbus :=
  {| m_modbusClient := m_modbusClient s; m_modbusMode := m_modbusMode s;
     m_slaveAddress := m_slaveAddress s; m_functionCode := m_functionCode s;
     m_startAddress := m_startAddress s;
     m_registerCount := m_registerCount s;
     m_pollInterval := m_pollInterval s; m_tcpHost := m_tcpHost s;
     m_tcpPort := m_tcpPort s; m_serialPortIndex := m_serialPortIndex s;
     m_baudRate := m_baudRate s; m_parity := m_parity s;
     m_parityIndex := m_parityIndex s; m_pollTimer := m_pollTimer s;
     m_deviceNames := m_deviceNames s;
     m_deviceLocations := m_deviceLocations s; m_settings := m_settings s;
     trace := v |}.

(** ** Primitive actions *)

(** Appending one effect to the trace. *)
Definition effect (e : Effect) (s : Modbus) : Modbus :=
  set_trace (trace s ++ [e]) s.

Definition Q_EMIT (sig : Signal) (s : Modbus) : Modbus :=
  effect (Emit sig) s.

(** [m_settings.setValue(key, v)]. *)
Definition setValue (key : string) (v : QVariant) (s : Modbus) : Modbus :=
  set_m_settings (<[key := v]> (m_settings s)) s.

(** [m_pollTimer->stop()] and [m_pollTimer->start(msec)]. *)
Definition timer_stop (s : Modbus) : Modbus :=
  effect TimerStop
    (set_m_pollTimer
       {| isActive := false; timerInterval := timerInterval (m_pollTimer s) |}
       s).

Definition timer_start (msec : N) (s : Modbus) : Modbus :=
  effect (TimerStart msec)
    (set_m_pollTimer {| isActive := true; timerInterval := msec |} s).

(** Updates of the client object. *)
Definition setConnectionParameter (p : ConnectionParameter) (v : QVariant)
    (c : QModbusClient) : QModbusClient :=
  {| clientKind := clientKind c; clientState := clientState c;
     clientParameters := clientParameters c ++ [(p, v)];
     clientTimeout := clientTimeout c; clientRetries := clientRetries c;
     clientErrorString := clientErrorString c;
     clientSlotsConnected := clientSlotsConnected c |}.

Definition setTimeout (msec : N) (c : QModbusClient) : QModbusClient :=
  {| clientKind := clientKind c; clientState := clientState c;
     clientParameters := clientParameters c;
     clientTimeout := msec; clientRetries := clientRetries c;
     clientErrorString := clientErrorString c;
     clientSlotsConnected := clientSlotsConnected c |}.

Definition setNumberOfRetries (n : N) (c : QModbusClient) : QModbusClient :=
  {| clientKind := clientKind c; clientState := clientState c;
     clientParameters := clientParameters c;
     clientTimeout := clientTimeout c; clientRetries := n;
     clientErrorString := clientErrorString c;
     clientSlotsConnected := clientSlotsConnected c |}.

Definition setClientState (st : DeviceState) (c : QModbusClient)
    : QModbusClient :=
  {| clientKind := clientKind c; clientState := st;
     clientParameters := clientParameters c;
     clientTimeout := clientTimeout c; clientRetries := clientRetries c;
     clientErrorString := clientErrorString c;
     clientSlotsConnected := clientSlotsConnected c |}.

Definition setClientError (text : string) (c : QModbusClient)
    : QModbusClient :=
  {| clientKind := clientKind c; clientState := clientState c;
     clientParameters := clientParameters c;
     clientTimeout := clientTimeout c; clientRetries := clientRetries c;
     clientErrorString := text;
     clientSlotsConnected := clientSlotsConnected c |}.

(** [connect] and [disconnect] of the client's [stateChanged] and
    [errorOccurred] signals to the driver's slots. *)
Definition setSlotsConnected (b : bool) (c : QModbusClient) : QModbusClient :=
  {| clientKind := clientKind c; clientState := clientState c;
     clientParameters := clientParameters c;
     clientTimeout := clientTimeout c; clientRetries := clientRetries c;
     clientErrorString := clientErrorString c;
     clientSlotsConnected := b |}.

(** A client as its constructor leaves it; the Qt defaults are a timeout of
    1000 ms and 3 retries. *)
Definition newClient (kind : ClientKind) : QModbusClient :=
  {| clientKind := kind; clientState := UnconnectedState;
     clientParameters := []; clientTimeout := 1000; clientRetries := 3;
     clientErrorString := ""; clientSlotsConnected := false |}.

(** [static_cast<int>] of a [QSerialPort::Parity]. *)
Definition parity_int (p : Parity) : Z :=
  match p with
  | NoParity => 0
  | EvenParity => 2
  | OddParity => 3
  | SpaceParity => 4
  | MarkParity => 5
  end%Z.

(** [QSerialPort::Data8] and [QSerialPort::OneStop]. *)
Definition Data8 : Z := 8.
Definition OneStop : Z := 1.

(** ** List accessors *)

Definition modeList : list string :=
  [tr "Modbus RTU (串口)"; tr "Modbus TCP (网络)"].

Definition functionCodeList : list string :=
  [tr "01 - 读线圈"; tr "02 - 读离散输入"; tr "03 - 读保持寄存器";
   tr "04 - 读输入寄存器"].

Definition serialPortList (s : Modbus) : list string :=
  if (0 <? length (m_deviceNames s))%nat then m_deviceNames s
  else [tr "选择串口"].

Definition parityList : list string := [tr "无"; tr "偶"; tr "奇"].

Definition baudRateList : list string :=
  ["1200"; "2400"; "4800"; "9600"; "19200"; "38400"; "57600"; "115200";
   "230400"; "460800"; "921600"].

(** [QList::count], compared with unsigned members. *)
Definition count {A} (l : list A) : N := N.of_nat (length l).

(** ** Polling *)

Definition startPolling (s : Modbus) : Modbus :=
  if negb (isActive (m_pollTimer s)) then
    let s := timer_start (m_pollInterval s) s in
    effect (qDebug ["Modbus polling started, interval:";
                    pretty (m_pollInterval s); "ms"]) s
  else s.

Definition stopPolling (s : Modbus) : Modbus :=
  if isActive (m_pollTimer s) then
    let s := timer_stop s in
    effect (qDebug ["Modbus polling stopped"]) s
  else s.

(** ** The HAL_Driver interface *)

Definition close (s : Modbus) : Modbus :=
  let s := stopPolling s in
  let s :=
    match m_modbusClient s with
    | Some client =>
        let client := setSlotsConnected false client in
        let s := set_m_modbusClient (Some client) s in
        let s :=
          if bool_decide (clientState client = ConnectedState)
          then effect DisconnectDevice s
          else s in
        let s := effect DeleteLaterClient s in
        set_m_modbusClient None s
    | None => s
    end in
  Q_EMIT configurationChanged s.

Definition isOpen (s : Modbus) : bool :=
  match m_modbusClient s with
  | Some client => bool_decide (clientState client = ConnectedState)
  | None => false
  end.

Definition isReadable (s : Modbus) : bool := isOpen s.

Definition isWritable (s : Modbus) : bool := isOpen s.

Definition configurationOk (s : Modbus) : bool :=
  if m_modbusMode s =? RTU then 0 <? m_serialPortIndex s
  else negb (String.eqb (m_tcpHost s) "").

Definition write (data : string) (s : Modbus) : N * Modbus :=
  (0, effect (qWarning ["Modbus write not implemented yet"]) s).

(** ** Slots for the client's signals *)

Definition onStateChanged (state : DeviceState) (s : Modbus) : Modbus :=
  if bool_decide (state = ConnectedState) then
    let s := startPolling s in
    Q_EMIT configurationChanged s
  else if bool_decide (state = UnconnectedState) then
    let s := stopPolling s in
    Q_EMIT configurationChanged s
  else s.

Definition onErrorOccurred (error : DeviceError) (s : Modbus) : Modbus :=
  match m_modbusClient s with
  | Some client =>
      if bool_decide (error ≠ NoError) then
        let errorMsg := clientErrorString client in
        let s := effect (qWarning ["Modbus error:"; errorMsg]) s in
        Q_EMIT (connectionError errorMsg) s
      else s
  | None => s
  end.

(** What the client signals while a call on it runs. *)
Inductive ClientEvent :=
  | stateChanged (state : DeviceState)
  | errorOccurred (error : DeviceError) (text : string).

(** The client records the new state or error, then the connected slot
    runs (a direct connection, on the same thread). *)
Definition deliver (s : Modbus) (ev : ClientEvent) : Modbus :=
  match m_modbusClient s with
  | Some client =>
      match ev with
      | stateChanged state =>
          let s := set_m_modbusClient (Some (setClientState state client)) s in
          if clientSlotsConnected client then onStateChanged state s else s
      | errorOccurred error text =>
          let s := set_m_modbusClient (Some (setClientError text client)) s in
          if clientSlotsConnected client then onErrorOccurred error s else s
      end
  | None => s
  end.

(** The system the driver is built for: the source selects code with
    [#ifdef Q_OS_WIN] and [#ifdef Q_OS_MACOS]. *)
Inductive System := Windows | MacOS | OtherSystem.

(** What lies outside the driver and answers its calls: the system it is
    built for and runs on, the serial ports of the machine, whether
    [connectDevice] succeeds, and what the client signals before
    [connectDevice] returns. *)
Record Host := {
  hostSystem : System;
  availablePorts : list QSerialPortInfo;
  connectDeviceOk : bool;
  connectDeviceEvents : list ClientEvent
}.

(** [m_modbusClient->connectDevice()]. *)
Definition connectDevice (host : Host) (s : Modbus) : bool * Modbus :=
  match m_modbusClient s with
  | Some client =>
      let s := effect (ConnectDevice client) s in
      let s := foldl deliver s (connectDeviceEvents host) in
      (connectDeviceOk host, s)
  | None => (false, s)
  end.

(** [QString::toLower], on the ASCII letters.  The only use of it in the
    driver is a test for the ASCII prefix [tty.], and no other character has
    one of the letters of that prefix as its lower case. *)
Definition toLower_ascii (c : ascii) : ascii :=
  let n := N_of_ascii c in
  if (65 <=? n) && (n <=? 90) then ascii_of_N (n + 32) else c.

Fixpoint toLower (s : string) : string :=
  match s with
  | EmptyString => EmptyString
  | String c s' => String (toLower_ascii c) (toLower s')
  end.

(** [QString::startsWith]. *)
Definition startsWith (s prefix : string) : bool := String.prefix prefix s.

(** The test of the loop of [Modbus::validPorts] on one port: the port is
    not null and, in a build for macOS, is no [tty.] device (only the [cu.]
    devices are kept there). *)
Definition isValidPort (system : System) (info : QSerialPortInfo) : bool :=
  if negb (portIsNull info) then
    match system with
    | MacOS => negb (startsWith (toLower (portName info)) "tty.")
    | Windows | OtherSystem => true
    end
  else false.

(** [Modbus::validPorts]. *)
Definition validPorts (host : Host) : list QSerialPortInfo :=
  List.filter (isValidPort (hostSystem host)) (availablePorts host).

(** ** Opening a connection *)

(** How the first part of [open] ends: it falls through to the common
    part, it returns, or [QList::at] is called with an index past the end of
    the list, for which Qt defines no result. *)
Inductive Created :=
  | FallThrough (s : Modbus)
  | Return (result : bool) (s : Modbus)
  | OutOfRange.

Definition open_create (host : Host) (s : Modbus) : Created :=
  if m_modbusMode s =? RTU then
    let ports := serialPortList s in
    if (1 <=? m_serialPortIndex s) && (m_serialPortIndex s <? count ports)
    then
      let rtuClient := newClient RtuSerialClient in
      let s := set_m_modbusClient (Some rtuClient) s in
      let validPortList := validPorts host in
      match validPortList !! N.to_nat (m_serialPortIndex s - 1) with
      | Some portInfo =>
          let rtuClient :=
            setConnectionParameter SerialPortNameParameter
              (VString (portName portInfo)) rtuClient in
          let rtuClient :=
            setConnectionParameter SerialBaudRateParameter
              (VInt (m_baudRate s)) rtuClient in
          let rtuClient :=
            setConnectionParameter SerialParityParameter
              (VInt (parity_int (m_parity s))) rtuClient in
          let rtuClient :=
            setConnectionParameter SerialDataBitsParameter
              (VInt Data8) rtuClient in
          let rtuClient :=
            setConnectionParameter SerialStopBitsParameter
              (VInt OneStop) rtuClient in
          let rtuClient := setTimeout 1000 rtuClient in
          let rtuClient := setNumberOfRetries 3 rtuClient in
          FallThrough (set_m_modbusClient (Some rtuClient) s)
      | None => OutOfRange
      end
    else
      let s :=
        effect (showMessageBox (tr "Modbus RTU配置错误") (tr "请选择有效的串口")
                  Warning) s in
      Return false s
  else if m_modbusMode s =? TCP then
    let tcpClient := newClient TcpClient in
    let tcpClient :=
      setConnectionParameter NetworkAddressParameter
        (VString (m_tcpHost s)) tcpClient in
    let tcpClient :=
      setConnectionParameter NetworkPortParameter
        (VUInt (m_tcpPort s)) tcpClient in
    let tcpClient := setTimeout 3000 tcpClient in
    let tcpClient := setNumberOfRetries 3 tcpClient in
    FallThrough (set_m_modbusClient (Some tcpClient) s)
  else FallThrough s.

(** [Modbus::open]; [None] stands for the call that ran into
    [OutOfRange]. *)
Definition open (host : Host) (s : Modbus) : option (bool * Modbus) :=
  let s := close s in
  match open_create host s with
  | OutOfRange => None
  | Return result s => Some (result, s)
  | FallThrough s =>
      match m_modbusClient s with
      | None => Some (false, s)
      | Some client =>
          let s :=
            set_m_modbusClient (Some (setSlotsConnected true client)) s in
          let '(ok, s) := connectDevice host s in
          if negb ok then
            let error :=
              match m_modbusClient s with
              | Some client => clientErrorString client
              | None => ""
              end in
            let s :=
              effect (showMessageBox (tr "Modbus连接失败") error Critical) s in
            Some (false, close s)
          else Some (true, s)
      end
  end.

(** ** Property setters *)

Definition setModbusMode (mode : N) (s : Modbus) : Modbus :=
  if negb (m_modbusMode s =? mode) then
    let s := set_m_modbusMode mode s in
    let s := setValue "Modbus_Mode" (VUInt mode) s in
    let s := Q_EMIT modbusModeChanged s in
    Q_EMIT configurationChanged s
  else s.

Definition setSlaveAddress (address : N) (s : Modbus) : Modbus :=
  if negb (m_slaveAddress s =? address) && (1 <=? address)
     && (address <=? 247)
  then
    let s := set_m_slaveAddress address s in
    let s := setValue "Modbus_SlaveAddr" (VUInt address) s in
    Q_EMIT slaveAddressChanged s
  else s.

(** [code + 1] is computed in [int] and stored in a [quint8]: the sum
    wraps at 256. *)
Definition setFunctionCode (code : N) (s : Modbus) : Modbus :=
  if negb (m_functionCode s =? code) then
    let s := set_m_functionCode ((code + 1) mod 256) s in
    let s := setValue "Modbus_FuncCode" (VUInt (m_functionCode s)) s in
    Q_EMIT functionCodeChanged s
  else s.

Definition setStartAddress (address : N) (s : Modbus) : Modbus :=
  if negb (m_startAddress s =? address) then
    let s := set_m_startAddress address s in
    let s := setValue "Modbus_StartAddr" (VUInt address) s in
    Q_EMIT startAddressChanged s
  else s.

Definition setRegisterCount (count : N) (s : Modbus) : Modbus :=
  if negb (m_registerCount s =? count) && (0 <? count) && (count <=? 125)
  then
    let s := set_m_registerCount count s in
    let s := setValue "Modbus_RegCount" (VUInt count) s in
    Q_EMIT registerCountChanged s
  else s.

Definition setPollInterval (interval : N) (s : Modbus) : Modbus :=
  if negb (m_pollInterval s =? interval) && (100 <=? interval) then
    let s := set_m_pollInterval interval s in
    let s := setValue "Modbus_PollInterval" (VUInt interval) s in
    let s := Q_EMIT pollIntervalChanged s in
    if isActive (m_pollTimer s) then
      let s := timer_stop s in
      timer_start (m_pollInterval s) s
    else s
  else s.

Definition setTcpHost (host : string) (s : Modbus) : Modbus :=
  if negb (String.eqb (m_tcpHost s) host) then
    let s := set_m_tcpHost host s in
    let s := setValue "Modbus_TcpHost" (VString host) s in
    let s := Q_EMIT tcpHostChanged s in
    Q_EMIT configurationChanged s
  else s.

Definition setTcpPort (port : N) (s : Modbus) : Modbus :=
  if negb (m_tcpPort s =? port) then
    let s := set_m_tcpPort port s in
    let s := setValue "Modbus_TcpPort" (VUInt port) s in
    Q_EMIT tcpPortChanged s
  else s.

Definition setSerialPortIndex (index : N) (s : Modbus) : Modbus :=
  let ports := serialPortList s in
  if index <? count ports then
    let s := set_m_serialPortIndex index s in
    let s := Q_EMIT serialPortIndexChanged s in
    Q_EMIT configurationChanged s
  else s.

Definition setBaudRate (rate : Z) (s : Modbus) : Modbus :=
  if negb (m_baudRate s =? rate)%Z && (0 <? rate)%Z then
    let s := set_m_baudRate rate s in
    let s := setValue "Modbus_BaudRate" (VInt rate) s in
    Q_EMIT baudRateChanged s
  else s.

(** The [switch] has no default: an index it does not list leaves
    [m_parity] as it was. *)
Definition setParity (parityIndex : N) (s : Modbus) : Modbus :=
  if parityIndex <? count parityList then
    let s := set_m_parityIndex parityIndex s in
    let s := setValue "Modbus_Parity" (VUInt parityIndex) s in
    let s :=
      match parityIndex with
      | 0 => set_m_parity NoParity s
      | 1 => set_m_parity EvenParity s
      | 2 => set_m_parity OddParity s
      | _ => s
      end in
    Q_EMIT parityChanged s
  else s.

(** ** The poll timer's slot and the reply's slot *)

(** The [switch] of [onPollTimer] on the function code. *)
Definition registerTypeOf (functionCode : N) : RegisterType :=
  match functionCode with
  | 1 => Coils
  | 2 => DiscreteInputs
  | 3 => HoldingRegisters
  | 4 => InputRegisters
  | _ => HoldingRegisters
  end.

(** [Modbus::onPollTimer].  [sent] is what [sendReadRequest] answers:
    a reply object, or the null pointer. *)
Definition onPollTimer (sent : option QModbusReply) (s : Modbus) : Modbus :=
  match m_modbusClient s with
  | Some client =>
      if negb (isOpen s) then s
      else
        let registerType := registerTypeOf (m_functionCode s) in
        let s :=
          effect (SendReadRequest registerType (m_startAddress s)
                    (m_registerCount s) (m_slaveAddress s)) s in
        match sent with
        | Some reply =>
            if negb (replyFinished reply)
            then effect (ConnectFinished (replyId reply)) s
            else effect (DeleteReply (replyId reply)) s
        | None =>
            effect (qWarning ["Modbus read request failed:";
                              clientErrorString client]) s
        end
  | None => s
  end.

(** [Modbus::onReadReady].  [sender] is the object whose signal called the
    slot, cast to a reply: the null pointer if it is not one. *)
Definition onReadReady (sender : option QModbusReply) (s : Modbus) : Modbus :=
  match sender with
  | None => s
  | Some reply =>
      let s :=
        if bool_decide (replyError reply = NoError) then
          let unit := replyResult reply in
          let data := Formatter.formatModbusData unit in
          Q_EMIT (dataReceived data) s
        else
          effect (qWarning ["Modbus read error:"; replyErrorString reply]) s
      in
      effect (DeleteLaterReply (replyId reply)) s
  end.

(** The name [refreshSerialDevices] lists a port under: in a build for
    Windows the port name, two spaces and the description; the port name
    elsewhere. *)
Definition shownName (system : System) (info : QSerialPortInfo) : string :=
  match system with
  | Windows => portName info +:+ "  " +:+ description info
  | MacOS | OtherSystem => portName info
  end.

(** [Modbus::refreshSerialDevices]. *)
Definition refreshSerialDevices (host : Host) (s : Modbus) : Modbus :=
  let portList := validPorts host in
  let shown := List.filter (λ info, negb (portIsNull info)) portList in
  let names := tr "选择串口" :: (shownName (hostSystem host) <$> shown) in
  let locations := "/dev/null" :: (systemLocation <$> shown) in
  if bool_decide (m_deviceNames s ≠ names) then
    let s := set_m_deviceNames names s in
    let s := set_m_deviceLocations locations s in
    Q_EMIT availablePortsChanged s
  else s.

(** ** Construction *)

(** The driver as its constructor leaves it when the settings store holds
    none of the driver's keys: every member has its default, and the final
    [setParity(m_parityIndex)] has run. *)
Definition constructed : Modbus :=
  setParity 0
    {| m_modbusClient := None; m_modbusMode := RTU; m_slaveAddress := 1;
       m_functionCode := 3; m_startAddress := 0; m_registerCount := 10;
       m_pollInterval := 1000; m_tcpHost := "127.0.0.1"; m_tcpPort := 502;
       m_serialPortIndex := 0; m_baudRate := 9600; m_parity := NoParity;
       m_parityIndex := 0;
       m_pollTimer := {| isActive := false; timerInterval := 0 |};
       m_deviceNames := []; m_deviceLocations := [];
       m_settings := ∅; trace := [] |}.

(** ** Vocabulary of the properties *)

(** The four read function codes: ReadCoils, ReadDiscreteInputs,
    ReadHoldingRegisters, ReadInputRegisters. *)
Definition readFunctionCodes : list N := [1; 2; 3; 4].

(** The parity a parity-list index stands for. *)
Definition parityOfIndex (index : N) : option Parity :=
  match index with
  | 0 => Some NoParity
  | 1 => Some EvenParity
  | 2 => Some OddParity
  | _ => None
  end.

(** The stored parity index and the stored parity enum agree. *)
Definition parityAgrees (s : Modbus) : Prop :=
  parityOfIndex (m_parityIndex s) = Some (m_parity s).

(** A call of one of the property setters (the [WRITE] functions of the
    [Q_PROPERTY] declarations). *)
Inductive SetterCall :=
  | callSetModbusMode (mode : N)
  | callSetSlaveAddress (address : N)
  | callSetFunctionCode (code : N)
  | callSetStartAddress (address : N)
  | callSetRegisterCount (count : N)
  | callSetPollInterval (interval : N)
  | callSetTcpHost (host : string)
  | callSetTcpPort (port : N)
  | callSetSerialPortIndex (index : N)
  | callSetBaudRate (rate : Z)
  | callSetParity (parityIndex : N).

Definition call (c : SetterCall) : Modbus → Modbus :=
  match c with
  | callSetModbusMode mode => setModbusMode mode
  | callSetSlaveAddress address => setSlaveAddress address
  | callSetFunctionCode code => setFunctionCode code
  | callSetStartAddress address => setStartAddress address
  | callSetRegisterCount count => setRegisterCount count
  | callSetPollInterval interval => setPollInterval interval
  | callSetTcpHost host => setTcpHost host
  | callSetTcpPort port => setTcpPort port
  | callSetSerialPortIndex index => setSerialPortIndex index
  | callSetBaudRate rate => setBaudRate rate
  | callSetParity parityIndex => setParity parityIndex
  end.

(** The argument of the call. *)
Definition argument (c : SetterCall) : QVariant :=
  match c with
  | callSetModbusMode mode => VUInt mode
  | callSetSlaveAddress address => VUInt address
  | callSetFunctionCode code => VUInt code
  | callSetStartAddress address => VUInt address
  | callSetRegisterCount count => VUInt count
  | callSetPollInterval interval => VUInt interval
  | callSetTcpHost host => VString host
  | callSetTcpPort port => VUInt port
  | callSetSerialPortIndex index => VUInt index
  | callSetBaudRate rate => VInt rate
  | callSetParity parityIndex => VUInt parityIndex
  end.

(** The member the setter writes (the [READ] function of its property). *)
Definition stored (c : SetterCall) (s : Modbus) : QVariant :=
  match c with
  | callSetModbusMode _ => VUInt (m_modbusMode s)
  | callSetSlaveAddress _ => VUInt (m_slaveAddress s)
  | callSetFunctionCode _ => VUInt (m_functionCode s)
  | callSetStartAddress _ => VUInt (m_startAddress s)
  | callSetRegisterCount _ => VUInt (m_registerCount s)
  | callSetPollInterval _ => VUInt (m_pollInterval s)
  | callSetTcpHost _ => VString (m_tcpHost s)
  | callSetTcpPort _ => VUInt (m_tcpPort s)
  | callSetSerialPortIndex _ => VUInt (m_serialPortIndex s)
  | callSetBaudRate _ => VInt (m_baudRate s)
  | callSetParity _ => VUInt (m_parityIndex s)
  end.

(** The signal of the property ([NOTIFY]). *)
Definition changeSignal (c : SetterCall) : Signal :=
  match c with
  | callSetModbusMode _ => modbusModeChanged
  | callSetSlaveAddress _ => slaveAddressChanged
  | callSetFunctionCode _ => functionCodeChanged
  | callSetStartAddress _ => startAddressChanged
  | callSetRegisterCount _ => registerCountChanged
  | callSetPollInterval _ => pollIntervalChanged
  | callSetTcpHost _ => tcpHostChanged
  | callSetTcpPort _ => tcpPortChanged
  | callSetSerialPortIndex _ => serialPortIndexChanged
  | callSetBaudRate _ => baudRateChanged
  | callSetParity _ => parityChanged
  end.

(** The settings key the setter's body names; the body of
    [setSerialPortIndex] names none. *)
Definition settingsKey (c : SetterCall) : option string :=
  match c with
  | callSetModbusMode _ => Some "Modbus_Mode"
  | callSetSlaveAddress _ => Some "Modbus_SlaveAddr"
  | callSetFunctionCode _ => Some "Modbus_FuncCode"
  | callSetStartAddress _ => Some "Modbus_StartAddr"
  | callSetRegisterCount _ => Some "Modbus_RegCount"
  | callSetPollInterval _ => Some "Modbus_PollInterval"
  | callSetTcpHost _ => Some "Modbus_TcpHost"
  | callSetTcpPort _ => Some "Modbus_TcpPort"
  | callSetSerialPortIndex _ => None
  | callSetBaudRate _ => Some "Modbus_BaudRate"
  | callSetParity _ => Some "Modbus_Parity"
  end.

(** The call changed the member: a successful mutation. *)
Definition mutates (c : SetterCall) (s : Modbus) : Prop :=
  stored c (call c s) ≠ stored c s.

(** The call wrote the member's new value to the settings store, under
    some key. *)
Definition persists (c : SetterCall) (s : Modbus) : Prop :=
  ∃ key, m_settings (call c s) = <[key := stored c (call c s)]> (m_settings s).

(** The call emitted the property's signal. *)
Definition notifies (c : SetterCall) (s : Modbus) : Prop :=
  ∃ rest, trace (call c s) = trace s ++ Emit (changeSignal c) :: rest.

(** Effects that start a transport connection. *)
Definition isConnectAttempt (e : Effect) : bool :=
  match e with
  | ConnectDevice _ => true
  | _ => false
  end.

(** Effects that report an error: to the user, to the listeners of
    [connectionError], or to the log. *)
Definition isErrorReport (e : Effect) : bool :=
  match e with
  | Emit (connectionError _) => true
  | showMessageBox _ _ _ => true
  | qWarning _ => true
  | _ => false
  end.

(** The driver is in the Disconnected state. *)
Definition Disconnected (s : Modbus) : Prop :=
  m_modbusClient s = None ∧ isActive (m_pollTimer s) = false
  ∧ isOpen s = false.

(** Reading a decimal numeral back. *)
Fixpoint read_digits (s : string) (acc : N) : option N :=
  match s with
  | EmptyString => Some acc
  | String c s' =>
      if Formatter.is_digit c
      then read_digits s' (acc * 10 + (N_of_ascii c - 48))
      else None
  end.

Definition decimal_value (s : string) : option N :=
  match s with
  | EmptyString => None
  | String c s' =>
      if Ascii.eqb c "0" && negb (String.eqb s' "") then None
      else read_digits s 0
  end.

(** A driver with two entries in its port list, the placeholder and one
    port, as [refreshSerialDevices] leaves it on a machine with one port,
    in a build for a system that is neither Windows nor macOS. *)
Definition onePort : QSerialPortInfo :=
  {| portName := "ttyUSB0"; description := "USB Serial";
     systemLocation := "/dev/ttyUSB0"; portIsNull := false |}.

Definition oneHost : Host :=
  {| hostSystem := OtherSystem; availablePorts := [onePort];
     connectDeviceOk := true;
     connectDeviceEvents := [stateChanged ConnectingState;
                             stateChanged ConnectedState] |}.

Definition withOnePort : Modbus := refreshSerialDevices oneHost constructed.

(** A machine in a build for macOS, with a call-out device, the dial-in
    device of the same adapter, and a null entry; and a machine in a build
    for Windows with one port. *)
Definition macHost : Host :=
  {| hostSystem := MacOS;
     availablePorts :=
       [{| portName := "cu.usbserial-10"; description := "USB Serial";
           systemLocation := "/dev/cu.usbserial-10"; portIsNull := false |};
        {| portName := "tty.usbserial-10"; description := "USB Serial";
           systemLocation := "/dev/tty.usbserial-10"; portIsNull := false |};
        {| portName := ""; description := ""; systemLocation := "";
           portIsNull := true |}];
     connectDeviceOk := true; connectDeviceEvents := [] |}.

Definition winHost : Host :=
  {| hostSystem := Windows;
     availablePorts :=
       [{| portName := "COM3"; description := "USB Serial Port";
           systemLocation := "\\.\COM3"; portIsNull := false |}];
     connectDeviceOk := true; connectDeviceEvents := [] |}.

(** The same driver after the port was selected and [open] succeeded: the
    client is connected and the poll timer runs. *)
Definition connected : Modbus :=
  match open oneHost (setSerialPortIndex 1 withOnePort) with
  | Some (_, s) => s
  | None => withOnePort
  end.

(** A reply that finished with a timeout, and one that finished well. *)
Definition timedOut : QModbusReply :=
  {| replyId := 7; replyFinished := true; replyError := TimeoutError;
     replyErrorString := "Request timeout.";
     replyResult :=
       {| registerType := Invalid; unitStartAddress := 0; values := [] |} |}.

Definition answered : QModbusReply :=
  {| replyId := 8; replyFinished := true; replyError := NoError;
     replyErrorString := "";
     replyResult :=
       {| registerType := HoldingRegisters; unitStartAddress := 0;
          values := [1; 2; 3] |} |}.

(** A reply still in flight when [sendReadRequest] returns. *)
Definition inFlight : QModbusReply :=
  {| replyId := 9; replyFinished := false; replyError := NoError;
     replyErrorString := "";
     replyResult :=
       {| registerType := Invalid; unitStartAddress := 0; values := [] |} |}.

(** ** The driver as a state machine *)

(** What can happen to the driver: a call of its public interface, a signal
    of the client it holds, a tick of the poll timer, the completion of a
    reply, the 1 Hz refresh of the port list. *)
Inductive Action :=
  | doSetter (c : SetterCall)
  | doOpen (host : Host)
  | doClose
  | doWrite (data : string)
  | doSignal (ev : ClientEvent)
  | doPollTimer (sent : option QModbusReply)
  | doReadReady (sender : option QModbusReply)
  | doRefresh (host : Host).

(** One action; [None] is the [open] that ran into [OutOfRange]. *)
Definition step (a : Action) (s : Modbus) : option Modbus :=
  match a with
  | doSetter c => Some (call c s)
  | doOpen host => snd <$> open host s
  | doClose => Some (close s)
  | doWrite data => Some (snd (write data s))
  | doSignal ev => Some (deliver s ev)
  | doPollTimer sent => Some (onPollTimer sent s)
  | doReadReady sender => Some (onReadReady sender s)
  | doRefresh host => Some (refreshSerialDevices host s)
  end.

Fixpoint run (actions : list Action) (s : Modbus) : option Modbus :=
  match actions with
  | [] => Some s
  | a :: rest =>
      match step a s with
      | Some s' => run rest s'
      | None => None
      end
  end.

(** Everything the driver holds but its client, its timer and its trace:
    the operating parameters, the port lists and the settings store. *)
Definition configuration (s : Modbus) :=
  (m_modbusMode s, m_slaveAddress s, m_functionCode s, m_startAddress s,
   m_registerCount s, m_pollInterval s, m_tcpHost s, m_tcpPort s,
   m_serialPortIndex s, m_baudRate s, m_parity s, m_parityIndex s,
   m_deviceNames s, m_deviceLocations s, m_settings s).

(** The ranges the setters' guards keep the parameters in. *)
Definition configInRange (s : Modbus) : Prop :=
  1 ≤ m_slaveAddress s ≤ 247
  ∧ 1 ≤ m_registerCount s ≤ 125
  ∧ 100 ≤ m_pollInterval s
  ∧ (0 < m_baudRate s)%Z
  ∧ parityAgrees s.

(** A running poll timer has the configured interval as its period. *)
Definition timerInSync (s : Modbus) : Prop :=
  isActive (m_pollTimer s) = true →
  timerInterval (m_pollTimer s) = m_pollInterval s.

(** The poll timer runs only while a client is held. *)
Definition pollingHasClient (s : Modbus) : Prop :=
  isActive (m_pollTimer s) = true → is_Some (m_modbusClient s).

(** A held client has its signals connected to the driver's slots. *)
Definition clientWired (s : Modbus) : Prop :=
  ∀ client, m_modbusClient s = Some client →
            clientSlotsConnected client = true.


(** The three facts about the session together. *)
Definition sessionInvariant (s : Modbus) : Prop :=
  timerInSync s ∧ pollingHasClient s ∧ clientWired s.

(** How a client was set up: its class, the connection parameters in the
    order they were set, its timeout and its number of retries. *)
Definition clientSetup (c : QModbusClient) :=
  (clientKind c, clientParameters c, clientTimeout c, clientRetries c).

(** The range test of a setter's guard on its argument (the test of the
    argument against the stored value left aside). *)
Definition inRange (c : SetterCall) (s : Modbus) : bool :=
  match c with
  | callSetModbusMode _ => true
  | callSetSlaveAddress address => (1 <=? address) && (address <=? 247)
  | callSetFunctionCode _ => true
  | callSetStartAddress _ => true
  | callSetRegisterCount count => (0 <? count) && (count <=? 125)
  | callSetPollInterval interval => 100 <=? interval
  | callSetTcpHost _ => true
  | callSetTcpPort _ => true
  | callSetSerialPortIndex index => index <? count (serialPortList s)
  | callSetBaudRate rate => (0 <? rate)%Z
  | callSetParity parityIndex => parityIndex <? count parityList
  end.

(** ** Reading a frame back *)

(** The fields of a line, split at the commas; a line without a comma is
    one field, the empty line included. *)
Fixpoint fields (s : string) : list string :=
  match s with
  | EmptyString => [EmptyString]
  | String c s' =>
      if Ascii.eqb c ","
      then EmptyString :: fields s'
      else match fields s' with
           | f :: fs => String c f :: fs
           | [] => [String c EmptyString]
           end
  end.

(** The line without its final line feed; [None] if it does not end with
    one. *)
Fixpoint chop (s : string) : option string :=
  match s with
  | EmptyString => None
  | String c s' =>
      match s' with
      | EmptyString =>
          if Ascii.eqb c Formatter.LF then Some EmptyString else None
      | String _ _ => String c <$> chop s'
      end
  end.

(** The values of a frame: every field of the line is read as a decimal
    numeral. *)
Definition readFrame (frame : string) : option (list N) :=
  match chop frame with
  | Some line => mapM decimal_value (fields line)
  | None => None
  end.

(** * Properties *)

(** ** The result formatter *)

Section FormatterFacts.
Import Formatter.

(** The index loop visits the values in order. *)
Lemma collect_values (data : QModbusDataUnit) :
  collect data = QString_number <$> values data.
Proof.
  unfold collect, valueCount, value.
  apply list_eq; intros i. rewrite !list_lookup_fmap.
  destruct (decide (i < length (values data))%nat) as [Hlt | Hge].
  - rewrite lookup_seq_lt by done. simpl.
    destruct (lookup_lt_is_Some_2 (values data) i Hlt) as [v Hv].
    by rewrite nth_lookup, Hv.
  - rewrite lookup_seq_ge by lia.
    by rewrite (lookup_ge_None_2 (values data) i) by lia.
Qed.

Lemma pretty_N_char_digit (d : N) : is_digit (pretty_N_char d) = true.
Proof. unfold pretty_N_char. by repeat case_match. Qed.

Lemma pretty_N_char_value (d : N) :
  d < 10 → N_of_ascii (pretty_N_char d) - 48 = d.
Proof.
  intros Hd.
  assert (d = 0 ∨ d = 1 ∨ d = 2 ∨ d = 3 ∨ d = 4 ∨ d = 5 ∨ d = 6 ∨ d = 7
          ∨ d = 8 ∨ d = 9) as Hcases by lia.
  by destruct Hcases as [->|[->|[->|[->|[->|[->|[->|[->|[->| ->]]]]]]]]].
Qed.

Lemma pretty_N_go_digits (x : N) (s : string) :
  string_forall is_digit s = true →
  string_forall is_digit (pretty_N_go x s) = true.
Proof.
  revert s. induction (N.lt_wf_0 x) as [x _ IH]; intros s Hs.
  destruct (decide (x = 0)) as [-> | Hx]; [by rewrite pretty_N_go_0 |].
  rewrite pretty_N_go_step by lia.
  apply IH; [apply N.div_lt; lia |].
  simpl. by rewrite pretty_N_char_digit, Hs.
Qed.

Lemma QString_number_digits (v : N) :
  string_forall is_digit (QString_number v) = true.
Proof.
  unfold QString_number, pretty, pretty_N. case_decide; [done |].
  by apply pretty_N_go_digits.
Qed.

Lemma pretty_N_go_read (x : N) (s : string) :
  read_digits (pretty_N_go x s) 0 = read_digits s x.
Proof.
  revert s. induction (N.lt_wf_0 x) as [x _ IH]; intros s.
  destruct (decide (x = 0)) as [-> | Hx]; [by rewrite pretty_N_go_0 |].
  rewrite pretty_N_go_step by lia.
  rewrite IH by (apply N.div_lt; lia).
  simpl. rewrite pretty_N_char_digit.
  rewrite pretty_N_char_value by (apply N.mod_lt; lia).
  f_equal. pose proof (N.div_mod x 10). lia.
Qed.

(** A positive number's numeral starts with a digit other than [0]. *)
Lemma pretty_N_go_head (x : N) (s : string) :
  0 < x → ∃ c r, pretty_N_go x s = String c r ∧ c ≠ "0"%char.
Proof.
  revert s. induction (N.lt_wf_0 x) as [x _ IH]; intros s Hx.
  rewrite pretty_N_go_step by done.
  destruct (decide (x `div` 10 = 0)) as [Hq | Hq].
  - rewrite Hq, pretty_N_go_0. eexists _, _. split; [done |].
    assert (x < 10) by (apply N.div_small_iff in Hq; lia).
    rewrite N.mod_small by done.
    assert (x = 1 ∨ x = 2 ∨ x = 3 ∨ x = 4 ∨ x = 5 ∨ x = 6 ∨ x = 7
            ∨ x = 8 ∨ x = 9) as Hcases by lia.
    by destruct Hcases as [->|[->|[->|[->|[->|[->|[->|[->| ->]]]]]]]].
  - apply IH; [apply N.div_lt; lia | by apply N.neq_0_lt_0].
Qed.

(** The numeral reads back as the number. *)
Lemma QString_number_value (v : N) : decimal_value (QString_number v) = Some v.
Proof.
  unfold QString_number, pretty, pretty_N. case_decide as Hv; [by subst |].
  destruct (pretty_N_go_head v "") as (c & r & Heq & Hc); [lia |].
  unfold decimal_value. rewrite Heq.
  replace (Ascii.eqb c "0") with false
    by (symmetry; by apply Ascii.eqb_neq).
  simpl andb. cbv iota. rewrite <- Heq. apply pretty_N_go_read.
Qed.

Lemma occurrences_app (c : ascii) (s t : string) :
  occurrences c (s +:+ t) = (occurrences c s + occurrences c t)%nat.
Proof. induction s as [| d s IH]; simpl; [done |]. rewrite IH. lia. Qed.

Lemma occurrences_digits (c : ascii) (s : string) :
  is_digit c = false → string_forall is_digit s = true →
  occurrences c s = 0%nat.
Proof.
  intros Hc. induction s as [| d s IH]; simpl; [done |].
  intros [Hd Hs]%andb_true_iff. rewrite IH by done.
  destruct (Ascii.eqb_spec c d) as [-> | _]; [congruence | done].
Qed.

Lemma occurrences_join (c : ascii) (parts : list string) :
  c ≠ ","%char → Forall (λ t, occurrences c t = 0%nat) parts →
  occurrences c (join "," parts) = 0%nat.
Proof.
  intros Hc. unfold join.
  induction 1 as [| t parts Ht _ IH]; [done |].
  destruct parts as [| u parts]; simpl in *; [done |].
  rewrite occurrences_app, Ht. simpl.
  destruct (Ascii.eqb_spec c ",") as [-> | _]; [done |]. apply IH.
Qed.

(** C3.  For every register type and every sequence of values, the
    formatter's output is the decimal numerals of the values, in the order of
    the sequence (ascending address), joined by commas and followed by one
    line feed.  Each numeral consists of digits only and reads back as its
    value; [0] and [1], the states of a coil or discrete input, are rendered
    ["0"] and ["1"]; the line feed at the end is the only one in the output.
    In particular the coil values [1,0,1] give ["1,0,1\n"] and the register
    values [10,0,65535] give ["10,0,65535\n"]. *)
Theorem formatModbusData_csv_line :
  ∀ (type : RegisterType) (start : N) (vs : list N),
    let data :=
      {| registerType := type; unitStartAddress := start; values := vs |} in
    let numerals := QString_number <$> vs in
    formatModbusData data = join "," numerals +:+ String LF ""
    ∧ decimal_value <$> numerals = Some <$> vs
    ∧ Forall (λ t, string_forall is_digit t = true) numerals
    ∧ occurrences LF (formatModbusData data) = 1%nat
    ∧ QString_number 0 = "0" ∧ QString_number 1 = "1"
    ∧ formatModbusData
        {| registerType := Coils; unitStartAddress := start;
           values := [1; 0; 1] |} = "1,0,1" +:+ String LF ""
    ∧ formatModbusData
        {| registerType := HoldingRegisters; unitStartAddress := start;
           values := [10; 0; 65535] |} = "10,0,65535" +:+ String LF "".
Proof.
  intros type start vs data numerals.
  assert (formatModbusData data = join "," numerals +:+ String LF "") as Hout.
  { unfold formatModbusData, formatCoils, formatRegisters.
    rewrite collect_values. by destruct (_ || _). }
  assert (Forall (λ t, string_forall is_digit t = true) numerals) as Hdigits.
  { apply Forall_fmap, Forall_forall. intros v _. apply QString_number_digits. }
  split; [exact Hout |]. split.
  { unfold numerals. rewrite <- list_fmap_compose.
    apply list_fmap_ext. intros _ v _. apply QString_number_value. }
  split; [exact Hdigits |]. split.
  { rewrite Hout, occurrences_app, occurrences_join; [done | done |].
    eapply Forall_impl; [exact Hdigits |].
    intros t Ht. by apply occurrences_digits. }
  by repeat split.
Qed.

(** C8.  The formatter's output does not depend on the register type: the
    branch for coils and discrete inputs and the branch for holding and
    input registers compute the same text, so two data units with the same
    values are formatted alike, whatever their types. *)
Theorem formatModbusData_type_independent :
  (∀ data : QModbusDataUnit, formatCoils data = formatRegisters data)
  ∧ ∀ (type1 type2 : RegisterType) (start1 start2 : N) (vs : list N),
      formatModbusData
        {| registerType := type1; unitStartAddress := start1; values := vs |}
      = formatModbusData
          {| registerType := type2; unitStartAddress := start2;
             values := vs |}.
Proof.
  split; [done |].
  intros type1 type2 start1 start2 vs.
  unfold formatModbusData, formatCoils, formatRegisters.
  rewrite !collect_values. simpl.
  by do 2 destruct (_ || _).
Qed.

End FormatterFacts.

(** ** Basic facts about the primitive actions *)

Lemma trace_effect (e : Effect) (s : Modbus) :
  trace (effect e s) = trace s ++ [e].
Proof. done. Qed.

Lemma trace_Q_EMIT (sig : Signal) (s : Modbus) :
  trace (Q_EMIT sig s) = trace s ++ [Emit sig].
Proof. done. Qed.

(** [stopPolling] leaves the timer stopped, touches nothing but the timer
    and the trace, and reports no error. *)
Lemma stopPolling_spec (s : Modbus) :
  isActive (m_pollTimer (stopPolling s)) = false
  ∧ m_modbusClient (stopPolling s) = m_modbusClient s
  ∧ ∃ added, trace (stopPolling s) = trace s ++ added
             ∧ Forall (λ e, isErrorReport e = false) added
             ∧ Forall (λ e, isConnectAttempt e = false) added.
Proof.
  unfold stopPolling. destruct (isActive (m_pollTimer s)) eqn:Hactive.
  - repeat split; [].
    exists [TimerStop; qDebug ["Modbus polling stopped"]]. simpl.
    split; [by rewrite <- app_assoc | by repeat constructor].
  - repeat split; [done |].
    exists []. rewrite app_nil_r. by repeat constructor.
Qed.

Lemma stopPolling_inactive (s : Modbus) :
  isActive (m_pollTimer s) = false → stopPolling s = s.
Proof. unfold stopPolling. by intros ->. Qed.

(** What [close] does, whatever the state it is called in. *)
Lemma close_spec (s : Modbus) :
  m_modbusClient (close s) = None
  ∧ isActive (m_pollTimer (close s)) = false
  ∧ ∃ added, trace (close s) = trace s ++ added ++ [Emit configurationChanged]
             ∧ Forall (λ e, isErrorReport e = false) added
             ∧ Forall (λ e, isConnectAttempt e = false) added.
Proof.
  destruct (stopPolling_spec s) as (Htimer & Hclient & added & Htrace & Herr & Hcon).
  unfold close. cbv zeta. rewrite Hclient.
  destruct (m_modbusClient s) as [client |].
  - simpl. case_bool_decide; simpl; (split; [done |]); (split; [done |]).
    + exists (added ++ [DisconnectDevice; DeleteLaterClient]).
      rewrite Htrace, <- !app_assoc. split; [done |].
      split; apply Forall_app; split; by repeat constructor.
    + exists (added ++ [DeleteLaterClient]).
      rewrite Htrace, <- !app_assoc. split; [done |].
      split; apply Forall_app; split; by repeat constructor.
  - simpl. split; [by destruct (m_modbusClient (stopPolling s)) |].
    split; [done |]. exists added. by rewrite Htrace, <- app_assoc.
Qed.

Lemma close_disconnected (s : Modbus) :
  m_modbusClient s = None → isActive (m_pollTimer s) = false →
  close s = Q_EMIT configurationChanged s.
Proof.
  intros Hclient Htimer. unfold close.
  rewrite (stopPolling_inactive s Htimer). cbv zeta. by rewrite Hclient.
Qed.

(** [close] leaves the configuration members alone. *)
Lemma close_configuration (s : Modbus) :
  m_modbusMode (close s) = m_modbusMode s
  ∧ m_serialPortIndex (close s) = m_serialPortIndex s
  ∧ m_deviceNames (close s) = m_deviceNames s.
Proof.
  unfold close, stopPolling.
  destruct (isActive (m_pollTimer s)); simpl;
    destruct (m_modbusClient s) as [client |]; simpl;
    try case_bool_decide; done.
Qed.

(** ** The connection lifecycle *)

(** C7.  [close] can be called in every state, with or without a session;
    it is a total function that reports no error (it emits no
    [connectionError], shows no message box and logs no warning), and it
    ends by raising [configurationChanged].  After one call, and after a
    second one, the driver is Disconnected: it holds no client, the poll
    timer is stopped and [isOpen] is false.  The second call changes nothing
    but to raise [configurationChanged] once more. *)
Theorem close_idempotent :
  ∀ s : Modbus,
    let s1 := close s in
    let s2 := close s1 in
    Disconnected s1 ∧ Disconnected s2
    ∧ (∃ added,
         trace s1 = trace s ++ added ++ [Emit configurationChanged]
         ∧ Forall (λ e, isErrorReport e = false) added)
    ∧ s2 = Q_EMIT configurationChanged s1
    ∧ trace s2 = trace s1 ++ [Emit configurationChanged].
Proof.
  intros s. cbv zeta.
  destruct (close_spec s) as (Hclient & Htimer & added & Htrace & Herr & _).
  assert (close (close s) = Q_EMIT configurationChanged (close s)) as Hsecond
    by (by apply close_disconnected).
  assert (Disconnected (close s)) as Hs1.
  { unfold Disconnected, isOpen. by rewrite Hclient. }
  split; [exact Hs1 |]. split.
  { rewrite Hsecond. unfold Disconnected, isOpen.
    change (m_modbusClient (Q_EMIT configurationChanged (close s)))
      with (m_modbusClient (close s)).
    change (m_pollTimer (Q_EMIT configurationChanged (close s)))
      with (m_pollTimer (close s)).
    by rewrite Hclient. }
  split; [by exists added |].
  split; [exact Hsecond |]. by rewrite Hsecond.
Qed.

(** The text of the configuration error [open] shows. *)
Lemma open_create_rtu_invalid (host : Host) (s : Modbus) :
  m_modbusMode s = RTU →
  m_serialPortIndex s = 0 ∨ count (serialPortList s) ≤ m_serialPortIndex s →
  open_create host s
  = Return false
      (effect (showMessageBox (tr "Modbus RTU配置错误") (tr "请选择有效的串口")
                 Warning) s).
Proof.
  intros Hmode Hindex. unfold open_create. rewrite Hmode. simpl.
  replace ((1 <=? m_serialPortIndex s)
           && (m_serialPortIndex s <? count (serialPortList s))) with false;
    [done |].
  symmetry. apply andb_false_iff.
  destruct Hindex as [Hzero | Hbeyond].
  - left. rewrite Hzero. done.
  - right. by apply N.ltb_ge.
Qed.

(** C4.  With RTU mode selected and no valid serial port index (the
    placeholder index 0, or an index at or past the end of the port list),
    [open] returns false, whatever the register count, the start address and
    the rest of the configuration are, and whatever the host would answer.
    After the effects of the initial [close], the only thing it does is to
    show the configuration error to the user; it creates no client and
    never calls [connectDevice]. *)
Theorem open_rtu_without_port :
  ∀ (host : Host) (s : Modbus),
    m_modbusMode s = RTU →
    m_serialPortIndex s = 0 ∨ count (serialPortList s) ≤ m_serialPortIndex s →
    ∃ s',
      open host s = Some (false, s')
      ∧ m_modbusClient s' = None
      ∧ trace s'
        = trace (close s)
          ++ [showMessageBox (tr "Modbus RTU配置错误") (tr "请选择有效的串口")
                Warning]
      ∧ ∃ added,
          trace s' = trace s ++ added
          ∧ Forall (λ e, isConnectAttempt e = false) added.
Proof.
  intros host s Hmode Hindex.
  destruct (close_configuration s) as (Hmode' & Hindex' & Hnames').
  destruct (close_spec s) as (Hclient & _ & added & Htrace & _ & Hadded).
  eexists. split.
  { unfold open. cbv zeta. rewrite open_create_rtu_invalid; [done | congruence |].
    unfold serialPortList. by rewrite Hindex', Hnames'. }
  split; [exact Hclient |]. split; [done |].
  exists (added ++ [Emit configurationChanged]
          ++ [showMessageBox (tr "Modbus RTU配置错误") (tr "请选择有效的串口")
                Warning]).
  split.
  - rewrite trace_effect, Htrace. by rewrite <- !app_assoc.
  - apply Forall_app. split; [exact Hadded | by repeat constructor].
Qed.

Lemma open_rtu_without_port_witness :
  m_modbusMode withOnePort = RTU
  ∧ (m_serialPortIndex withOnePort = 0
     ∨ count (serialPortList withOnePort) ≤ m_serialPortIndex withOnePort)
  ∧ ∃ s',
      open oneHost withOnePort = Some (false, s')
      ∧ m_modbusClient s' = None
      ∧ trace s'
        = trace (close withOnePort)
          ++ [showMessageBox (tr "Modbus RTU配置错误") (tr "请选择有效的串口")
                Warning]
      ∧ ∃ added,
          trace s' = trace withOnePort ++ added
          ∧ Forall (λ e, isConnectAttempt e = false) added.
Proof.
  split; [reflexivity |]. split; [left; reflexivity |].
  apply (open_rtu_without_port oneHost withOnePort);
    [reflexivity | left; reflexivity].
Defined.

(** ** The property setters *)

(** C6.  An interval below 100 is ignored: the driver, and with it the
    stored interval and the timer, stays as it was.  An interval of at
    least 100 that differs from the stored one is stored, and if the poll
    timer is active the timer is stopped and started again at once with the
    new interval as its period. *)
Theorem setPollInterval_restarts_timer :
  ∀ (interval : N) (s : Modbus),
    (interval < 100 → setPollInterval interval s = s)
    ∧ (100 ≤ interval → interval ≠ m_pollInterval s →
       isActive (m_pollTimer s) = true →
       m_pollInterval (setPollInterval interval s) = interval
       ∧ m_pollTimer (setPollInterval interval s)
         = {| isActive := true; timerInterval := interval |}
       ∧ trace (setPollInterval interval s)
         = trace s
           ++ [Emit pollIntervalChanged; TimerStop; TimerStart interval]).
Proof.
  intros interval s. split.
  - intros Hlow. unfold setPollInterval.
    replace (100 <=? interval) with false by (symmetry; by apply N.leb_gt).
    by rewrite andb_false_r.
  - intros Hhigh Hnew Hactive. unfold setPollInterval.
    replace (100 <=? interval) with true by (symmetry; by apply N.leb_le).
    replace (m_pollInterval s =? interval) with false
      by (symmetry; apply N.eqb_neq; congruence).
    simpl. rewrite Hactive. simpl.
    repeat split. by rewrite <- !app_assoc.
Qed.

Lemma setPollInterval_restarts_timer_witness :
  (50 < 100 ∧ setPollInterval 50 connected = connected)
  ∧ (100 ≤ 250 ∧ 250 ≠ m_pollInterval connected
     ∧ isActive (m_pollTimer connected) = true
     ∧ m_pollInterval (setPollInterval 250 connected) = 250
     ∧ m_pollTimer (setPollInterval 250 connected)
       = {| isActive := true; timerInterval := 250 |}
     ∧ trace (setPollInterval 250 connected)
       = trace connected
         ++ [Emit pollIntervalChanged; TimerStop; TimerStart 250]).
Proof.
  split.
  - split; [lia |].
    apply (proj1 (setPollInterval_restarts_timer 50 connected)). lia.
  - split; [lia |]. split; [by vm_compute |]. split; [reflexivity |].
    apply (proj2 (setPollInterval_restarts_timer 250 connected));
      [lia | by vm_compute | reflexivity].
Defined.

(** An index the parity setter accepts. *)
Lemma setParity_accepted (parityIndex : N) (s : Modbus) :
  parityIndex < count parityList →
  m_parityIndex (setParity parityIndex s) = parityIndex
  ∧ parityOfIndex parityIndex = Some (m_parity (setParity parityIndex s))
  ∧ m_settings (setParity parityIndex s)
    = <["Modbus_Parity" := VUInt parityIndex]> (m_settings s)
  ∧ trace (setParity parityIndex s) = trace s ++ [Emit parityChanged].
Proof.
  change (count parityList) with 3. intros Hlt.
  assert (parityIndex = 0 ∨ parityIndex = 1 ∨ parityIndex = 2)
    as [-> | [-> | ->]] by lia; done.
Qed.

(** An index the parity setter rejects. *)
Lemma setParity_rejected (parityIndex : N) (s : Modbus) :
  count parityList ≤ parityIndex → setParity parityIndex s = s.
Proof.
  intros Hge. unfold setParity.
  by replace (parityIndex <? count parityList) with false
    by (symmetry; by apply N.ltb_ge).
Qed.

(** C10.  The parity list has three entries, and the parity setter accepts
    exactly the indices 0, 1 and 2.  An accepted call stores the index,
    writes it to the settings store, raises [parityChanged] and stores the
    parity the index stands for (0 NoParity, 1 EvenParity, 2 OddParity); a
    call with any other index leaves the driver as it was.  So the setter
    preserves the agreement of the stored index and the stored parity. *)
Theorem setParity_keeps_index_and_enum_consistent :
  ∀ (parityIndex : N) (s : Modbus),
    count parityList = 3
    ∧ (parityIndex < 3 →
       m_parityIndex (setParity parityIndex s) = parityIndex
       ∧ parityOfIndex parityIndex = Some (m_parity (setParity parityIndex s))
       ∧ m_settings (setParity parityIndex s)
         = <["Modbus_Parity" := VUInt parityIndex]> (m_settings s)
       ∧ trace (setParity parityIndex s) = trace s ++ [Emit parityChanged])
    ∧ (3 ≤ parityIndex → setParity parityIndex s = s)
    ∧ (parityAgrees s → parityAgrees (setParity parityIndex s)).
Proof.
  intros parityIndex s. split; [done |].
  split; [apply setParity_accepted |].
  split; [apply setParity_rejected |].
  intros Hagrees.
  destruct (decide (parityIndex < 3)) as [Hlt | Hge].
  - destruct (setParity_accepted parityIndex s Hlt) as (Hindex & Hparity & _).
    unfold parityAgrees. by rewrite Hindex.
  - rewrite setParity_rejected; [done |]. change (count parityList) with 3. lia.
Qed.

Lemma setParity_keeps_index_and_enum_consistent_witness :
  (2 < 3
   ∧ m_parityIndex (setParity 2 constructed) = 2
   ∧ parityOfIndex 2 = Some (m_parity (setParity 2 constructed)))
  ∧ (3 ≤ 7 ∧ setParity 7 constructed = constructed)
  ∧ (parityAgrees constructed ∧ parityAgrees (setParity 1 constructed)).
Proof.
  pose proof (setParity_keeps_index_and_enum_consistent 2 constructed)
    as (_ & Haccepted & _).
  pose proof (setParity_keeps_index_and_enum_consistent 7 constructed)
    as (_ & _ & Hrejected & _).
  pose proof (setParity_keeps_index_and_enum_consistent 1 constructed)
    as (_ & _ & _ & Hkept).
  split.
  - split; [lia |]. destruct Haccepted as (Hindex & Hparity & _); [lia |].
    split; [exact Hindex | exact Hparity].
  - split.
    + split; [lia |]. apply Hrejected. lia.
    + split; [reflexivity |]. apply Hkept. reflexivity.
Defined.

(** Membership in an explicit list that has no such element. *)
Ltac refute_elem_of H :=
  repeat (apply elem_of_cons in H as [H | H]; [discriminate H |]);
  by apply elem_of_nil in H.




(** A setter body guarded by the test [b]: either the test fails and the
    member did not change, or the body ran. *)
Ltac setter_cases :=
  match goal with
  | Hmut : context [if ?b then _ else _] |- _ =>
      let E := fresh "Hguard" in
      destruct b eqn:E; [| by destruct Hmut]
  end.

(** C5, as the code has it.  Every successful mutation by a property setter
    raises the property's own signal.  Every setter but the one of the serial
    port index also writes the member's new value to the settings store,
    under the key of the property; the serial-port-index setter writes
    nothing to the settings store. *)
Theorem setters_notify_and_persist :
  ∀ (c : SetterCall) (s : Modbus),
    mutates c s →
    notifies c s
    ∧ match settingsKey c with
      | Some key =>
          m_settings (call c s) = <[key := stored c (call c s)]> (m_settings s)
      | None =>
          (∃ index, c = callSetSerialPortIndex index)
          ∧ m_settings (call c s) = m_settings s
      end.
Proof.
  intros c s Hmut. unfold mutates, notifies in *.
  destruct c; cbn [call stored changeSignal settingsKey] in *.
  - unfold setModbusMode in *. setter_cases.
    split; [eexists; simpl; by rewrite <- !app_assoc | done].
  - unfold setSlaveAddress in *. setter_cases.
    split; [by exists [] | done].
  - unfold setFunctionCode in *. setter_cases.
    split; [by exists [] | done].
  - unfold setStartAddress in *. setter_cases.
    split; [by exists [] | done].
  - unfold setRegisterCount in *. setter_cases.
    split; [by exists [] | done].
  - unfold setPollInterval in *. setter_cases.
    cbv zeta. simpl. destruct (isActive (m_pollTimer s)); simpl.
    + split; [eexists; by rewrite <- !app_assoc | done].
    + split; [by exists [] | done].
  - unfold setTcpHost in *. setter_cases.
    split; [eexists; simpl; by rewrite <- !app_assoc | done].
  - unfold setTcpPort in *. setter_cases.
    split; [by exists [] | done].
  - unfold setSerialPortIndex in *. cbv zeta in *. setter_cases.
    split; [eexists; simpl; by rewrite <- !app_assoc |].
    split; [by eexists | done].
  - unfold setBaudRate in *. setter_cases.
    split; [by exists [] | done].
  - unfold setParity in *. setter_cases.
    apply N.ltb_lt in Hguard. change (count parityList) with 3 in Hguard.
    assert (parityIndex = 0 ∨ parityIndex = 1 ∨ parityIndex = 2)
      as [-> | [-> | ->]] by lia;
      (split; [by exists [] | done]).
Qed.

Lemma setters_notify_and_persist_witness :
  (mutates (callSetSlaveAddress 17) constructed
   ∧ notifies (callSetSlaveAddress 17) constructed
   ∧ m_settings (setSlaveAddress 17 constructed)
     = <["Modbus_SlaveAddr" := VUInt 17]> (m_settings constructed))
  ∧ (mutates (callSetSerialPortIndex 1) withOnePort
     ∧ notifies (callSetSerialPortIndex 1) withOnePort
     ∧ m_settings (setSerialPortIndex 1 withOnePort) = m_settings withOnePort).
Proof.
  assert (mutates (callSetSlaveAddress 17) constructed) as Haddress
    by (unfold mutates; by vm_compute).
  assert (mutates (callSetSerialPortIndex 1) withOnePort) as Hport
    by (unfold mutates; by vm_compute).
  split.
  - split; [exact Haddress |].
    destruct (setters_notify_and_persist _ _ Haddress) as [Hsignal Hstore].
    split; [exact Hsignal | exact Hstore].
  - split; [exact Hport |].
    destruct (setters_notify_and_persist _ _ Hport) as [Hsignal [_ Hstore]].
    split; [exact Hsignal | exact Hstore].
Defined.

(** C5, as stated, fails for the serial-port-index setter: selecting port 1
    on a driver whose port list has two entries changes the stored index
    from 0 to 1, and nothing is written to the settings store, under any
    key. *)
Lemma setSerialPortIndex_not_persisted :
  mutates (callSetSerialPortIndex 1) withOnePort
  ∧ m_settings (setSerialPortIndex 1 withOnePort) = m_settings withOnePort
  ∧ ¬ persists (callSetSerialPortIndex 1) withOnePort
  ∧ ¬ (∀ (c : SetterCall) (s : Modbus),
         mutates c s → persists c s ∧ notifies c s).
Proof.
  assert (mutates (callSetSerialPortIndex 1) withOnePort) as Hmut
    by (unfold mutates; by vm_compute).
  assert (¬ persists (callSetSerialPortIndex 1) withOnePort) as Hnot.
  { intros [key Hkey]. apply (f_equal (.!! key)) in Hkey.
    rewrite lookup_insert_eq in Hkey.
    change (m_settings (call (callSetSerialPortIndex 1) withOnePort))
      with (<["Modbus_Parity" := VUInt 0]> (∅ : gmap string QVariant))
      in Hkey.
    apply lookup_insert_Some in Hkey as [[_ Hvalue] | [_ Hempty]].
    - discriminate Hvalue.
    - by rewrite lookup_empty in Hempty. }
  split; [exact Hmut |]. split; [reflexivity |]. split; [exact Hnot |].
  intros Hall. by destruct (Hall _ _ Hmut) as [Hpersists _].
Qed.




(** ** Completion of a poll read request *)

(** C2, as the code has it.  When the driver is open and the reply to a
    poll read request is still in flight as [sendReadRequest] returns, the
    driver connects the reply's [finished] signal to [onReadReady].  When
    [onReadReady] then runs for a reply that finished without error, the
    reply's values are formatted and [dataReceived] is emitted with the
    formatted bytes; for a reply that finished with an error, a warning
    with the error text is logged and no signal is emitted.  In both cases
    the reply is then handed to [deleteLater]. *)
Theorem onReadReady_completion :
  ∀ (reply : QModbusReply) (s : Modbus),
    (isOpen s = true → replyFinished reply = false →
     trace (onPollTimer (Some reply) s)
     = trace s
       ++ [SendReadRequest (registerTypeOf (m_functionCode s))
             (m_startAddress s) (m_registerCount s) (m_slaveAddress s);
           ConnectFinished (replyId reply)])
    ∧ (replyError reply = NoError →
       trace (onReadReady (Some reply) s)
       = trace s
         ++ [Emit (dataReceived
                     (Formatter.formatModbusData (replyResult reply)));
             DeleteLaterReply (replyId reply)])
    ∧ (replyError reply ≠ NoError →
       trace (onReadReady (Some reply) s)
       = trace s
         ++ [qWarning ["Modbus read error:"; replyErrorString reply];
             DeleteLaterReply (replyId reply)]).
Proof.
  intros reply s. split; [| split].
  - intros Hopen Hflight. unfold onPollTimer. rewrite Hopen.
    unfold isOpen in Hopen.
    destruct (m_modbusClient s) as [client |]; [| discriminate Hopen].
    rewrite Hflight. cbn [negb]. rewrite !trace_effect.
    by rewrite <- app_assoc.
  - intros Hok. unfold onReadReady.
    rewrite bool_decide_eq_true_2 by done.
    rewrite trace_effect, trace_Q_EMIT. by rewrite <- app_assoc.
  - intros Herror. unfold onReadReady.
    rewrite bool_decide_eq_false_2 by done.
    rewrite !trace_effect. by rewrite <- app_assoc.
Qed.

Lemma onReadReady_completion_witness :
  (isOpen connected = true ∧ replyFinished inFlight = false
   ∧ trace (onPollTimer (Some inFlight) connected)
     = trace connected
       ++ [SendReadRequest (registerTypeOf (m_functionCode connected))
             (m_startAddress connected) (m_registerCount connected)
             (m_slaveAddress connected);
           ConnectFinished (replyId inFlight)])
  ∧ (replyError answered = NoError
     ∧ trace (onReadReady (Some answered) connected)
       = trace connected
         ++ [Emit (dataReceived
                     (Formatter.formatModbusData (replyResult answered)));
             DeleteLaterReply (replyId answered)])
  ∧ (replyError timedOut ≠ NoError
     ∧ trace (onReadReady (Some timedOut) connected)
       = trace connected
         ++ [qWarning ["Modbus read error:"; replyErrorString timedOut];
             DeleteLaterReply (replyId timedOut)]).
Proof.
  split; [| split].
  - split; [reflexivity |]. split; [reflexivity |].
    apply (proj1 (onReadReady_completion inFlight connected)); reflexivity.
  - split; [reflexivity |].
    apply (proj1 (proj2 (onReadReady_completion answered connected))).
    reflexivity.
  - split; [discriminate |].
    apply (proj2 (proj2 (onReadReady_completion timedOut connected))).
    discriminate.
Defined.

(** C2, as stated, fails on the error path: for a reply that finished with
    a timeout, [onReadReady] logs a warning and emits no [connectionError],
    with the reply's error text or any other. *)
Lemma onReadReady_error_emits_no_connectionError :
  replyError timedOut ≠ NoError
  ∧ trace (onReadReady (Some timedOut) connected)
    = trace connected
      ++ [qWarning ["Modbus read error:"; "Request timeout."];
          DeleteLaterReply 7]
  ∧ (∀ text,
       Emit (connectionError text)
       ∉ trace (onReadReady (Some timedOut) connected))
  ∧ ¬ (replyError timedOut ≠ NoError →
       Emit (connectionError (replyErrorString timedOut))
       ∈ trace (onReadReady (Some timedOut) connected)).
Proof.
  assert (∀ text,
            Emit (connectionError text)
            ∉ trace (onReadReady (Some timedOut) connected)) as Hnone.
  { intros text H.
    let t := eval vm_compute in (trace (onReadReady (Some timedOut) connected))
    in change (trace (onReadReady (Some timedOut) connected)) with t in H.
    refute_elem_of H. }
  split; [discriminate |]. split; [vm_compute; reflexivity |].
  split; [exact Hnone |].
  intros H. apply (Hnone (replyErrorString timedOut)). apply H. discriminate.
Qed.

(** The trace of the last poll cycle of the specification's scenario: a
    reply with the values 1, 2, 3 gives the frame ["1,2,3\n"]. *)
Example onReadReady_frame :
  trace (onReadReady (Some answered) connected)
  = trace connected
    ++ [Emit (dataReceived ("1,2,3" +:+ String Formatter.LF ""));
        DeleteLaterReply 8].
Proof. vm_compute. reflexivity. Qed.

(** A reply that is already finished when [sendReadRequest] returns is
    deleted on the spot; [onReadReady] never runs for it. *)
Example onPollTimer_finished_reply :
  trace (onPollTimer (Some answered) connected)
  = trace connected
    ++ [SendReadRequest HoldingRegisters 0 10 1; DeleteReply 8].
Proof. vm_compute. reflexivity. Qed.

(** ** Reading frames back *)

Lemma chop_line (line : string) :
  chop (line +:+ String Formatter.LF "") = Some line.
Proof.
  induction line as [| c line IH]; [done |].
  change (String c line +:+ String Formatter.LF "")
    with (String c (line +:+ String Formatter.LF "")).
  cbn [chop]. rewrite IH. by destruct line.
Qed.

Lemma fields_no_comma (t : string) :
  Formatter.occurrences "," t = 0%nat → fields t = [t].
Proof.
  induction t as [| c t IH]; [done |].
  cbn [fields Formatter.occurrences]. rewrite (Ascii.eqb_sym "," c).
  destruct (Ascii.eqb_spec c ",") as [-> | Hc]; [done |].
  intros Ht. by rewrite IH.
Qed.

Lemma fields_before_comma (t rest : string) :
  Formatter.occurrences "," t = 0%nat →
  fields (t +:+ String "," rest) = t :: fields rest.
Proof.
  induction t as [| c t IH]; [done |].
  change (String c t +:+ String "," rest)
    with (String c (t +:+ String "," rest)).
  cbn [fields Formatter.occurrences]. rewrite (Ascii.eqb_sym "," c).
  destruct (Ascii.eqb_spec c ",") as [-> | Hc]; [done |].
  intros Ht. by rewrite IH.
Qed.

Lemma fields_join (parts : list string) :
  parts ≠ [] → Forall (λ t, Formatter.occurrences "," t = 0%nat) parts →
  fields (Formatter.join "," parts) = parts.
Proof.
  unfold Formatter.join. intros Hne Hparts.
  induction Hparts as [| t parts Ht Hparts IH]; [done |].
  destruct parts as [| u parts].
  - by apply fields_no_comma.
  - change (String.concat "," (t :: u :: parts))
      with (t +:+ String "," (String.concat "," (u :: parts))).
    rewrite fields_before_comma by done. by rewrite IH.
Qed.

Lemma formatModbusData_join (data : QModbusDataUnit) :
  Formatter.formatModbusData data
  = Formatter.join "," (Formatter.QString_number <$> values data)
    +:+ String Formatter.LF "".
Proof.
  unfold Formatter.formatModbusData, Formatter.formatCoils,
    Formatter.formatRegisters.
  rewrite collect_values. by destruct (_ || _).
Qed.

(** X1.  A frame reads back as the values it was made from: for every
    register type and every non-empty sequence of values, chopping the line
    feed off the formatter's output, splitting the line at the commas and
    reading every field as a decimal numeral gives the values, in order.  So
    two different non-empty value sequences never give the same frame. *)
Theorem readFrame_formatModbusData :
  ∀ data : QModbusDataUnit,
    values data ≠ [] →
    readFrame (Formatter.formatModbusData data) = Some (values data)
    ∧ ∀ data',
        values data' ≠ [] →
        Formatter.formatModbusData data' = Formatter.formatModbusData data →
        values data' = values data.
Proof.
  assert (∀ data, values data ≠ [] →
            readFrame (Formatter.formatModbusData data) = Some (values data))
    as Hread.
  { intros data Hne. unfold readFrame.
    rewrite formatModbusData_join, chop_line, fields_join.
    - apply mapM_fmap_Some. apply QString_number_value.
    - by destruct (values data).
    - apply Forall_fmap, Forall_forall. intros v _.
      apply occurrences_digits; [done | apply QString_number_digits]. }
  intros data Hne. split; [by apply Hread |].
  intros data' Hne' Hsame.
  apply Hread in Hne, Hne'. rewrite Hsame in Hne'. congruence.
Qed.

Lemma readFrame_formatModbusData_witness :
  values (replyResult answered) ≠ []
  ∧ readFrame (Formatter.formatModbusData (replyResult answered))
    = Some (values (replyResult answered)).
Proof.
  split; [discriminate |].
  apply (readFrame_formatModbusData (replyResult answered)). discriminate.
Defined.

(** ** What the lifecycle leaves alone *)

Lemma configuration_effect (e : Effect) (s : Modbus) :
  configuration (effect e s) = configuration s.
Proof. done. Qed.

Lemma configuration_startPolling (s : Modbus) :
  configuration (startPolling s) = configuration s.
Proof. unfold startPolling. by destruct (isActive (m_pollTimer s)). Qed.

Lemma configuration_stopPolling (s : Modbus) :
  configuration (stopPolling s) = configuration s.
Proof. unfold stopPolling. by destruct (isActive (m_pollTimer s)). Qed.

Lemma configuration_close (s : Modbus) :
  configuration (close s) = configuration s.
Proof.
  rewrite <- (configuration_stopPolling s). unfold close.
  destruct (m_modbusClient (stopPolling s)) as [client |]; [| done].
  cbv zeta. by case_bool_decide.
Qed.

Lemma configuration_onStateChanged (state : DeviceState) (s : Modbus) :
  configuration (onStateChanged state s) = configuration s.
Proof.
  unfold onStateChanged. repeat case_bool_decide; [| | done].
  - apply configuration_startPolling.
  - apply configuration_stopPolling.
Qed.

Lemma configuration_onErrorOccurred (error : DeviceError) (s : Modbus) :
  configuration (onErrorOccurred error s) = configuration s.
Proof.
  unfold onErrorOccurred.
  destruct (m_modbusClient s); [| done]. by case_bool_decide.
Qed.

Lemma configuration_deliver (s : Modbus) (ev : ClientEvent) :
  configuration (deliver s ev) = configuration s.
Proof.
  unfold deliver. destruct (m_modbusClient s) as [client |]; [| done].
  destruct ev as [state | error text]; cbv zeta;
    destruct (clientSlotsConnected client); try done.
  - by rewrite configuration_onStateChanged.
  - by rewrite configuration_onErrorOccurred.
Qed.

Lemma configuration_deliver_all (events : list ClientEvent) (s : Modbus) :
  configuration (foldl deliver s events) = configuration s.
Proof.
  revert s. induction events as [| ev events IH]; intros s; [done |].
  simpl. by rewrite IH, configuration_deliver.
Qed.

Lemma configuration_open_create (host : Host) (s : Modbus) :
  match open_create host s with
  | FallThrough s' | Return _ s' => configuration s' = configuration s
  | OutOfRange => True
  end.
Proof.
  unfold open_create.
  destruct (m_modbusMode s =? RTU).
  - cbv zeta. destruct (_ && _); [| done].
    by destruct (validPorts host !! _).
  - by destruct (m_modbusMode s =? TCP).
Qed.

Lemma configuration_open (host : Host) (s s' : Modbus) (result : bool) :
  open host s = Some (result, s') → configuration s' = configuration s.
Proof.
  unfold open. cbv zeta.
  pose proof (configuration_open_create host (close s)) as Hcreate.
  rewrite configuration_close in Hcreate.
  destruct (open_create host (close s)) as [s1 | result1 s1 |];
    [| by intros [= _ <-] | done].
  destruct (m_modbusClient s1) as [client |] eqn:Hclient;
    [| by intros [= _ <-]].
  unfold connectDevice. cbn [m_modbusClient set_m_modbusClient].
  destruct (connectDeviceOk host); cbn [negb]; intros [= _ <-].
  - by rewrite configuration_deliver_all.
  - rewrite configuration_close, configuration_effect.
    by rewrite configuration_deliver_all.
Qed.

Lemma configuration_onPollTimer (sent : option QModbusReply) (s : Modbus) :
  configuration (onPollTimer sent s) = configuration s.
Proof.
  unfold onPollTimer. destruct (m_modbusClient s); [| done].
  destruct (negb (isOpen s)); [done |]. cbv zeta.
  destruct sent as [reply |]; [| done]. by destruct (negb (replyFinished reply)).
Qed.

Lemma configuration_onReadReady (sender : option QModbusReply) (s : Modbus) :
  configuration (onReadReady sender s) = configuration s.
Proof.
  unfold onReadReady. destruct sender as [reply |]; [| done].
  by case_bool_decide.
Qed.

(** X2.  Nothing but the property setters and the port-list refresh changes
    the operating parameters, the port lists or the settings store: [open]
    (whatever it returns), [close], [write], every signal of the client, the
    poll timer's tick and the completion of a reply leave all of them as
    they were. *)
Theorem lifecycle_keeps_configuration :
  ∀ (a : Action) (s s' : Modbus),
    (∀ c, a ≠ doSetter c) → (∀ host, a ≠ doRefresh host) →
    step a s = Some s' →
    configuration s' = configuration s.
Proof.
  intros a s s' Hsetter Hrefresh.
  destruct a as [c | host | | data | ev | sent | sender | host];
    cbn [step].
  - by destruct (Hsetter c).
  - destruct (open host s) as [[result s1] |] eqn:Hopen; [| done].
    intros [= <-]. by apply configuration_open in Hopen.
  - intros [= <-]. apply configuration_close.
  - by intros [= <-].
  - intros [= <-]. apply configuration_deliver.
  - intros [= <-]. apply configuration_onPollTimer.
  - intros [= <-]. apply configuration_onReadReady.
  - by destruct (Hrefresh host).
Qed.

Lemma lifecycle_keeps_configuration_witness :
  step doClose connected = Some (close connected)
  ∧ configuration (close connected) = configuration connected.
Proof.
  split; [reflexivity |].
  apply (lifecycle_keeps_configuration doClose connected);
    [discriminate | discriminate | reflexivity].
Defined.

(** ** Invariants of the driver *)

Lemma configInRange_configuration (s s' : Modbus) :
  configuration s' = configuration s → configInRange s → configInRange s'.
Proof.
  unfold configuration, configInRange, parityAgrees.
  intros [= Hmode Hslave Hcode Hstart Hcount Hpoll Hhost Hport Hindex Hbaud
            Hparity Hpindex Hnames Hlocations Hsettings].
  by rewrite Hslave, Hcount, Hpoll, Hbaud, Hparity, Hpindex.
Qed.

(** Turning the boolean tests of the guards into propositions. *)
Ltac guard_facts :=
  repeat match goal with
    | H : _ && _ = true |- _ => apply andb_true_iff in H as [? ?]
    | H : negb _ = true |- _ => apply negb_true_iff in H
    | H : (_ <=? _) = true |- _ => apply N.leb_le in H
    | H : (_ <? _) = true |- _ => apply N.ltb_lt in H
    | H : (_ <? _)%Z = true |- _ => apply Z.ltb_lt in H
    end.

(** The ranges after a setter's body ran. *)
Ltac range_facts :=
  match goal with
  | Hs : configInRange _ |- _ =>
      unfold configInRange, parityAgrees in *;
      destruct Hs as (? & ? & ? & ? & ?); simpl;
      repeat split; (lia || done)
  end.

Lemma configInRange_setter (c : SetterCall) (s : Modbus) :
  configInRange s → configInRange (call c s).
Proof.
  intros Hs.
  destruct c; cbn [call].
  - unfold setModbusMode. by destruct (negb _).
  - unfold setSlaveAddress. destruct (_ && _) eqn:Hguard; [| done].
    guard_facts. range_facts.
  - unfold setFunctionCode. by destruct (negb _).
  - unfold setStartAddress. by destruct (negb _).
  - unfold setRegisterCount. destruct (_ && _) eqn:Hguard; [| done].
    guard_facts. range_facts.
  - unfold setPollInterval. destruct (_ && _) eqn:Hguard; [| done].
    guard_facts. cbv zeta. destruct (isActive _); range_facts.
  - unfold setTcpHost. by destruct (negb _).
  - unfold setTcpPort. by destruct (negb _).
  - unfold setSerialPortIndex. cbv zeta. by destruct (_ <? _).
  - unfold setBaudRate. destruct (_ && _) eqn:Hguard; [| done].
    guard_facts. range_facts.
  - destruct (decide (parityIndex < count parityList)) as [Hlt | Hge].
    + destruct (setParity_accepted parityIndex s Hlt)
        as (Hindex & Hagree & _).
      change (count parityList) with 3 in Hlt.
      assert (parityIndex = 0 ∨ parityIndex = 1 ∨ parityIndex = 2)
        as [-> | [-> | ->]] by lia; range_facts.
    + rewrite setParity_rejected; [done | lia].
Qed.

Lemma configInRange_refresh (host : Host) (s : Modbus) :
  configInRange s → configInRange (refreshSerialDevices host s).
Proof.
  unfold refreshSerialDevices. cbv zeta. by case_bool_decide.
Qed.

Lemma configInRange_step (a : Action) (s s' : Modbus) :
  configInRange s → step a s = Some s' → configInRange s'.
Proof.
  intros Hs Hstep.
  destruct a as [c | host | | data | ev | sent | sender | host].
  - injection Hstep as <-. by apply configInRange_setter.
  - eapply configInRange_configuration; [| exact Hs].
    cbn [step] in Hstep.
    destruct (open host s) as [[result s1] |] eqn:Hopen; [| done].
    injection Hstep as <-. by apply configuration_open in Hopen.
  - injection Hstep as <-.
    eapply configInRange_configuration; [apply configuration_close | done].
  - by injection Hstep as <-.
  - injection Hstep as <-.
    eapply configInRange_configuration; [apply configuration_deliver | done].
  - injection Hstep as <-.
    eapply configInRange_configuration; [apply configuration_onPollTimer | done].
  - injection Hstep as <-.
    eapply configInRange_configuration; [apply configuration_onReadReady | done].
  - injection Hstep as <-. by apply configInRange_refresh.
Qed.

Lemma configInRange_constructed : configInRange constructed.
Proof. by repeat split. Qed.

Lemma configInRange_run (actions : list Action) (s s' : Modbus) :
  configInRange s → run actions s = Some s' → configInRange s'.
Proof.
  revert s. induction actions as [| a actions IH]; intros s Hs Hrun.
  - by injection Hrun as <-.
  - cbn [run] in Hrun. destruct (step a s) as [s1 |] eqn:Hstep; [| done].
    eapply IH; [| exact Hrun]. by eapply configInRange_step.
Qed.

(** X3.  The setters' guards keep the operating parameters in range: once
    the slave address is within 1..247, the register count within 1..125,
    the poll interval at least 100 ms, the baud rate positive and the parity
    index in agreement with the parity, no sequence of actions on the
    driver (setter calls with any arguments, [open], [close], client
    signals, timer ticks, replies, port refreshes) takes any of them out of
    range.  The driver constructed over an empty settings store starts
    within these ranges. *)
Theorem run_keeps_parameters_in_range :
  configInRange constructed
  ∧ ∀ (actions : list Action) (s s' : Modbus),
      configInRange s → run actions s = Some s' → configInRange s'.
Proof.
  split; [exact configInRange_constructed | exact configInRange_run].
Qed.

Lemma run_keeps_parameters_in_range_witness :
  configInRange constructed
  ∧ run [doSetter (callSetSlaveAddress 0); doSetter (callSetRegisterCount 500);
         doSetter (callSetPollInterval 20); doClose] constructed
    = Some (close (setPollInterval 20 (setRegisterCount 500
              (setSlaveAddress 0 constructed))))
  ∧ configInRange (close (setPollInterval 20 (setRegisterCount 500
                     (setSlaveAddress 0 constructed)))).
Proof.
  destruct run_keeps_parameters_in_range as [Hstart Hrun].
  split; [exact Hstart |]. split; [reflexivity |].
  apply (Hrun [doSetter (callSetSlaveAddress 0);
               doSetter (callSetRegisterCount 500);
               doSetter (callSetPollInterval 20); doClose] constructed);
    [exact Hstart | reflexivity].
Defined.

(** The setters never touch the client, and none but the poll-interval
    setter touches the timer. *)
Lemma setter_session (c : SetterCall) (s : Modbus) :
  m_modbusClient (call c s) = m_modbusClient s
  ∧ ((∀ interval, c ≠ callSetPollInterval interval) →
     m_pollTimer (call c s) = m_pollTimer s
     ∧ m_pollInterval (call c s) = m_pollInterval s).
Proof.
  destruct c; cbn [call].
  - unfold setModbusMode. by destruct (negb _).
  - unfold setSlaveAddress. by destruct (_ && _).
  - unfold setFunctionCode. by destruct (negb _).
  - unfold setStartAddress. by destruct (negb _).
  - unfold setRegisterCount. by destruct (_ && _).
  - split; [| intros Hother; by destruct (Hother interval)].
    unfold setPollInterval. destruct (_ && _); [| done].
    cbv zeta. by destruct (isActive _).
  - unfold setTcpHost. by destruct (negb _).
  - unfold setTcpPort. by destruct (negb _).
  - unfold setSerialPortIndex. cbv zeta. by destruct (_ <? _).
  - unfold setBaudRate. by destruct (_ && _).
  - unfold setParity. destruct (_ <? _); [| done].
    cbv zeta. by repeat case_match.
Qed.

Lemma sessionInvariant_same (s s' : Modbus) :
  m_modbusClient s' = m_modbusClient s → m_pollTimer s' = m_pollTimer s →
  m_pollInterval s' = m_pollInterval s →
  sessionInvariant s → sessionInvariant s'.
Proof.
  unfold sessionInvariant, timerInSync, pollingHasClient, clientWired.
  by intros -> -> ->.
Qed.

Lemma sessionInvariant_setter (c : SetterCall) (s : Modbus) :
  sessionInvariant s → sessionInvariant (call c s).
Proof.
  intros Hs. destruct (setter_session c s) as [Hclient Hothers].
  assert ((∃ interval, c = callSetPollInterval interval)
          ∨ ∀ interval, c ≠ callSetPollInterval interval)
    as [[interval ->] | Hother]
    by (destruct c; (by right) || (left; by eexists)).
  - clear Hothers. cbn [call] in *. revert Hclient.
    unfold setPollInterval. destruct (_ && _); [| done]. cbv zeta.
    destruct Hs as (Hsync & Hpolling & Hwired).
    unfold sessionInvariant, timerInSync, pollingHasClient, clientWired in *.
    destruct (isActive (m_pollTimer _)) eqn:Hactive; simpl in *;
      rewrite ?Hactive; intros _; (split; [| split]); done.
  - destruct (Hothers Hother) as [Htimer Hpoll].
    by apply (sessionInvariant_same s).
Qed.

Lemma startPolling_session (s : Modbus) :
  m_modbusClient (startPolling s) = m_modbusClient s
  ∧ m_pollInterval (startPolling s) = m_pollInterval s
  ∧ isActive (m_pollTimer (startPolling s)) = true
  ∧ (timerInSync s → timerInSync (startPolling s)).
Proof.
  unfold startPolling, timerInSync.
  destruct (isActive (m_pollTimer s)) eqn:Hactive.
  - cbn [negb]. repeat split; try done. intros Hsync _. by apply Hsync.
  - cbn [negb]. cbv zeta. by repeat split.
Qed.

Lemma sessionInvariant_close (s : Modbus) : sessionInvariant (close s).
Proof.
  destruct (close_spec s) as (Hclient & Htimer & _).
  unfold sessionInvariant, timerInSync, pollingHasClient, clientWired.
  rewrite Hclient, Htimer. by repeat split.
Qed.

Lemma sessionInvariant_onStateChanged (state : DeviceState) (s : Modbus) :
  is_Some (m_modbusClient s) →
  sessionInvariant s → sessionInvariant (onStateChanged state s).
Proof.
  intros Hheld (Hsync & Hpolling & Hwired).
  unfold onStateChanged. repeat case_bool_decide; [| | done].
  - destruct (startPolling_session s) as (Hclient & Hpoll & Hactive & Hkeeps).
    unfold sessionInvariant, pollingHasClient, clientWired.
    change (m_pollTimer (Q_EMIT configurationChanged (startPolling s)))
      with (m_pollTimer (startPolling s)).
    change (m_modbusClient (Q_EMIT configurationChanged (startPolling s)))
      with (m_modbusClient (startPolling s)).
    rewrite Hclient. repeat split; [by apply Hkeeps | done | done].
  - destruct (stopPolling_spec s) as (Htimer & Hclient & _).
    unfold sessionInvariant, timerInSync, pollingHasClient, clientWired.
    change (m_pollTimer (Q_EMIT configurationChanged (stopPolling s)))
      with (m_pollTimer (stopPolling s)).
    change (m_modbusClient (Q_EMIT configurationChanged (stopPolling s)))
      with (m_modbusClient (stopPolling s)).
    rewrite Hclient, Htimer. by repeat split.
Qed.

Lemma onErrorOccurred_session (error : DeviceError) (s : Modbus) :
  m_modbusClient (onErrorOccurred error s) = m_modbusClient s
  ∧ m_pollTimer (onErrorOccurred error s) = m_pollTimer s
  ∧ m_pollInterval (onErrorOccurred error s) = m_pollInterval s.
Proof.
  unfold onErrorOccurred. destruct (m_modbusClient s) eqn:Hclient; [| done].
  by case_bool_decide.
Qed.

(** A signal of the client keeps the session invariant, and the client
    stays held. *)
Lemma sessionInvariant_deliver (s : Modbus) (ev : ClientEvent) :
  sessionInvariant s →
  sessionInvariant (deliver s ev)
  ∧ (is_Some (m_modbusClient s) → is_Some (m_modbusClient (deliver s ev))).
Proof.
  intros Hs. unfold deliver.
  destruct (m_modbusClient s) as [client |] eqn:Hclient; [| done].
  pose proof Hs as (Hsync & Hpolling & Hwired).
  rewrite (Hwired client Hclient).
  destruct ev as [state | error text]; cbv zeta.
  - set (s1 := set_m_modbusClient (Some (setClientState state client)) s).
    assert (sessionInvariant s1) as Hs1.
    { unfold sessionInvariant, timerInSync, pollingHasClient, clientWired.
      repeat split; [done | by eexists |].
      intros client' [= <-]. simpl. by apply Hwired. }
    split; [by apply sessionInvariant_onStateChanged |].
    intros _. unfold onStateChanged. repeat case_bool_decide; [| | done].
    + change (m_modbusClient (Q_EMIT configurationChanged (startPolling s1)))
        with (m_modbusClient (startPolling s1)).
      by destruct (startPolling_session s1) as (-> & _).
    + change (m_modbusClient (Q_EMIT configurationChanged (stopPolling s1)))
        with (m_modbusClient (stopPolling s1)).
      by destruct (stopPolling_spec s1) as (_ & -> & _).
  - set (s1 := set_m_modbusClient (Some (setClientError text client)) s).
    assert (sessionInvariant s1) as Hs1.
    { unfold sessionInvariant, timerInSync, pollingHasClient, clientWired.
      repeat split; [done | by eexists |].
      intros client' [= <-]. simpl. by apply Hwired. }
    destruct (onErrorOccurred_session error s1) as (Hc & Ht & Hp).
    split; [by apply (sessionInvariant_same s1) |].
    intros _. by rewrite Hc.
Qed.

Lemma sessionInvariant_deliver_all (events : list ClientEvent) (s : Modbus) :
  sessionInvariant s → is_Some (m_modbusClient s) →
  sessionInvariant (foldl deliver s events)
  ∧ is_Some (m_modbusClient (foldl deliver s events)).
Proof.
  revert s. induction events as [| ev events IH]; intros s Hs Hheld; [done |].
  destruct (sessionInvariant_deliver s ev Hs) as [Hs' Hheld'].
  simpl. apply IH; [done | by apply Hheld'].
Qed.

Lemma Disconnected_close (s : Modbus) : Disconnected (close s).
Proof.
  destruct (close_spec s) as (Hclient & Htimer & _).
  unfold Disconnected, isOpen. by rewrite Hclient.
Qed.

Lemma sessionInvariant_Disconnected (s : Modbus) :
  Disconnected s → sessionInvariant s.
Proof.
  intros (Hclient & Htimer & _).
  unfold sessionInvariant, timerInSync, pollingHasClient, clientWired.
  rewrite Hclient, Htimer. by repeat split.
Qed.

(** The first part of [open] leaves the timer alone; where it returns, it
    has created no client. *)
Lemma open_create_session (host : Host) (s : Modbus) :
  match open_create host s with
  | FallThrough s' =>
      m_pollTimer s' = m_pollTimer s
      ∧ (m_modbusClient s' = None → m_modbusClient s = None)
  | Return result s' =>
      result = false ∧ m_pollTimer s' = m_pollTimer s
      ∧ m_modbusClient s' = m_modbusClient s
  | OutOfRange => True
  end.
Proof.
  unfold open_create.
  destruct (m_modbusMode s =? RTU).
  - cbv zeta. destruct (_ && _); [| done].
    by destruct (validPorts host !! _).
  - by destruct (m_modbusMode s =? TCP).
Qed.

(** What [open] leaves behind when it returns. *)
Lemma open_outcome (host : Host) (s s' : Modbus) (result : bool) :
  open host s = Some (result, s') →
  sessionInvariant s'
  ∧ (result = false → Disconnected s')
  ∧ (result = true →
     is_Some (m_modbusClient s') ∧ connectDeviceOk host = true).
Proof.
  unfold open. cbv zeta.
  pose proof (Disconnected_close s) as Hclosed.
  pose proof (open_create_session host (close s)) as Hcreate.
  destruct (open_create host (close s)) as [s1 | result1 s1 |]; [| | done].
  - destruct Hcreate as [Htimer Hnone].
    destruct (m_modbusClient s1) as [client |] eqn:Hclient.
    + set (s2 := set_m_modbusClient (Some (setSlotsConnected true client)) s1).
      assert (sessionInvariant (effect (ConnectDevice (setSlotsConnected true client)) s2)) as Hs2.
      { destruct Hclosed as (_ & Hinactive & _).
        unfold sessionInvariant, timerInSync, pollingHasClient, clientWired.
        cbn [m_pollTimer m_modbusClient effect set_trace s2 set_m_modbusClient].
        rewrite Htimer, Hinactive.
        repeat split; try done. by intros client' [= <-]. }
      unfold connectDevice. cbn [m_modbusClient set_m_modbusClient s2].
      fold s2.
      destruct (sessionInvariant_deliver_all (connectDeviceEvents host) _ Hs2)
        as [Hs3 Hheld]; [by eexists |].
      destruct (connectDeviceOk host); cbn [negb]; intros [= <- <-].
      * split; [exact Hs3 |]. split; [done |]. intros _. by split.
      * split; [apply sessionInvariant_Disconnected, Disconnected_close |].
        split; [intros _; apply Disconnected_close | done].
    + intros [= <- <-].
      assert (Disconnected s1) as Hs1.
      { destruct Hclosed as (_ & Hinactive & _).
        unfold Disconnected, isOpen. by rewrite Hclient, Htimer. }
      split; [by apply sessionInvariant_Disconnected |]. by split.
  - destruct Hcreate as (-> & Htimer & Hclient). intros [= <- <-].
    assert (Disconnected s1) as Hs1.
    { destruct Hclosed as (Hnone & Hinactive & _).
      unfold Disconnected, isOpen. by rewrite Hclient, Htimer, Hnone. }
    split; [by apply sessionInvariant_Disconnected |]. by split.
Qed.

Lemma onPollTimer_session (sent : option QModbusReply) (s : Modbus) :
  m_modbusClient (onPollTimer sent s) = m_modbusClient s
  ∧ m_pollTimer (onPollTimer sent s) = m_pollTimer s
  ∧ m_pollInterval (onPollTimer sent s) = m_pollInterval s.
Proof.
  unfold onPollTimer. destruct (m_modbusClient s) eqn:Hclient; [| done].
  destruct (negb (isOpen s)); [done |]. cbv zeta.
  destruct sent as [reply |]; [| done]. by destruct (negb (replyFinished reply)).
Qed.

Lemma onReadReady_session (sender : option QModbusReply) (s : Modbus) :
  m_modbusClient (onReadReady sender s) = m_modbusClient s
  ∧ m_pollTimer (onReadReady sender s) = m_pollTimer s
  ∧ m_pollInterval (onReadReady sender s) = m_pollInterval s.
Proof.
  unfold onReadReady. destruct sender as [reply |]; [| done].
  by case_bool_decide.
Qed.

Lemma refreshSerialDevices_session (host : Host) (s : Modbus) :
  m_modbusClient (refreshSerialDevices host s) = m_modbusClient s
  ∧ m_pollTimer (refreshSerialDevices host s) = m_pollTimer s
  ∧ m_pollInterval (refreshSerialDevices host s) = m_pollInterval s.
Proof. unfold refreshSerialDevices. cbv zeta. by case_bool_decide. Qed.

Lemma sessionInvariant_step (a : Action) (s s' : Modbus) :
  sessionInvariant s → step a s = Some s' → sessionInvariant s'.
Proof.
  intros Hs Hstep.
  destruct a as [c | host | | data | ev | sent | sender | host];
    cbn [step] in Hstep.
  - injection Hstep as <-. by apply sessionInvariant_setter.
  - destruct (open host s) as [[result s1] |] eqn:Hopen; [| done].
    injection Hstep as <-. by apply open_outcome in Hopen as [Hs1 _].
  - injection Hstep as <-. apply sessionInvariant_close.
  - by injection Hstep as <-.
  - injection Hstep as <-. by apply sessionInvariant_deliver.
  - injection Hstep as <-.
    destruct (onPollTimer_session sent s) as (Hc & Ht & Hp).
    by apply (sessionInvariant_same s).
  - injection Hstep as <-.
    destruct (onReadReady_session sender s) as (Hc & Ht & Hp).
    by apply (sessionInvariant_same s).
  - injection Hstep as <-.
    destruct (refreshSerialDevices_session host s) as (Hc & Ht & Hp).
    by apply (sessionInvariant_same s).
Qed.

Lemma sessionInvariant_run (actions : list Action) (s s' : Modbus) :
  sessionInvariant s → run actions s = Some s' → sessionInvariant s'.
Proof.
  revert s. induction actions as [| a actions IH]; intros s Hs Hrun.
  - by injection Hrun as <-.
  - cbn [run] in Hrun. destruct (step a s) as [s1 |] eqn:Hstep; [| done].
    eapply IH; [| exact Hrun]. by eapply sessionInvariant_step.
Qed.

Lemma sessionInvariant_constructed : sessionInvariant constructed.
Proof. by apply sessionInvariant_Disconnected. Qed.

(** X4.  Three facts about the session hold for the freshly constructed
    driver and survive every sequence of actions on it: a running poll
    timer has the configured poll interval as its period; the poll timer
    runs only while a client is held; a held client has its signals
    connected to the driver's slots. *)
Theorem run_keeps_session_invariant :
  sessionInvariant constructed
  ∧ ∀ (actions : list Action) (s s' : Modbus),
      sessionInvariant s → run actions s = Some s' →
      (isActive (m_pollTimer s') = true →
       timerInterval (m_pollTimer s') = m_pollInterval s'
       ∧ is_Some (m_modbusClient s'))
      ∧ ∀ client, m_modbusClient s' = Some client →
                  clientSlotsConnected client = true.
Proof.
  split; [exact sessionInvariant_constructed |].
  intros actions s s' Hs Hrun.
  destruct (sessionInvariant_run actions s s' Hs Hrun)
    as (Hsync & Hpolling & Hwired).
  split; [| exact Hwired].
  intros Hactive. split; [by apply Hsync | by apply Hpolling].
Qed.

Lemma run_keeps_session_invariant_witness :
  sessionInvariant constructed
  ∧ run [doRefresh oneHost; doSetter (callSetSerialPortIndex 1);
         doOpen oneHost; doSetter (callSetPollInterval 250)] constructed
    = Some (setPollInterval 250 connected)
  ∧ isActive (m_pollTimer (setPollInterval 250 connected)) = true
  ∧ timerInterval (m_pollTimer (setPollInterval 250 connected))
    = m_pollInterval (setPollInterval 250 connected)
  ∧ is_Some (m_modbusClient (setPollInterval 250 connected)).
Proof.
  destruct run_keeps_session_invariant as [Hstart Hrun].
  assert (run [doRefresh oneHost; doSetter (callSetSerialPortIndex 1);
               doOpen oneHost; doSetter (callSetPollInterval 250)] constructed
          = Some (setPollInterval 250 connected)) as Hreached
    by (vm_compute; reflexivity).
  split; [exact Hstart |]. split; [exact Hreached |].
  split; [vm_compute; reflexivity |].
  destruct (Hrun _ _ _ Hstart Hreached) as [Hpolling _].
  apply Hpolling. vm_compute. reflexivity.
Defined.

(** X5.  What [open] leaves behind.  When [open] returns false, for
    whatever reason, the driver is Disconnected: it holds no client, the
    poll timer is stopped and [isOpen] is false.  When it returns true,
    [connectDevice] succeeded and the driver holds a client whose signals
    are connected to its slots. *)
Theorem open_result :
  ∀ (host : Host) (s s' : Modbus) (result : bool),
    open host s = Some (result, s') →
    (result = false → Disconnected s')
    ∧ (result = true →
       connectDeviceOk host = true
       ∧ ∃ client, m_modbusClient s' = Some client
                   ∧ clientSlotsConnected client = true).
Proof.
  intros host s s' result Hopen.
  destruct (open_outcome host s s' result Hopen)
    as ((_ & _ & Hwired) & Hfalse & Htrue).
  split; [exact Hfalse |].
  intros Hresult. destruct (Htrue Hresult) as [[client Hclient] Hok].
  split; [exact Hok |]. exists client. split; [exact Hclient |].
  by apply Hwired.
Qed.

Lemma open_result_witness :
  open oneHost withOnePort
  = Some (false,
          effect (showMessageBox (tr "Modbus RTU配置错误")
                    (tr "请选择有效的串口") Warning) (close withOnePort))
  ∧ Disconnected
      (effect (showMessageBox (tr "Modbus RTU配置错误")
                 (tr "请选择有效的串口") Warning) (close withOnePort)).
Proof.
  assert (open oneHost withOnePort
          = Some (false,
                  effect (showMessageBox (tr "Modbus RTU配置错误")
                            (tr "请选择有效的串口") Warning)
                    (close withOnePort))) as Hopen
    by (vm_compute; reflexivity).
  split; [exact Hopen |].
  by apply (open_result oneHost withOnePort _ false Hopen).
Defined.

(** X6.  In range on the wire.  While the parameters are in range (as they
    are for the constructed driver, and stay under every sequence of
    actions), a tick of the poll timer on an open driver issues exactly one
    read request: for 1 to 125 values, to a unit address within 1..247,
    starting at the configured address. *)
Theorem onPollTimer_request_in_range :
  ∀ (actions : list Action) (s0 s : Modbus) (sent : option QModbusReply),
    configInRange s0 → run actions s0 = Some s → isOpen s = true →
    1 ≤ m_registerCount s ≤ 125 ∧ 1 ≤ m_slaveAddress s ≤ 247
    ∧ ∃ after : Effect,
        trace (onPollTimer sent s)
        = trace s
          ++ [SendReadRequest (registerTypeOf (m_functionCode s))
                (m_startAddress s) (m_registerCount s) (m_slaveAddress s);
              after]
        ∧ ∀ type start count server,
            after ≠ SendReadRequest type start count server.
Proof.
  intros actions s0 s sent Hs0 Hrun Hopen.
  destruct (configInRange_run actions s0 s Hs0 Hrun)
    as (Hslave & Hcount & _).
  split; [exact Hcount |]. split; [exact Hslave |].
  unfold onPollTimer. rewrite Hopen. unfold isOpen in Hopen.
  destruct (m_modbusClient s) as [client |]; [| done].
  cbn [negb]. cbv zeta.
  destruct sent as [reply |]; [destruct (negb (replyFinished reply)) |];
    eexists; rewrite !trace_effect, <- app_assoc; by split.
Qed.

Lemma onPollTimer_request_in_range_witness :
  configInRange constructed
  ∧ run [doRefresh oneHost; doSetter (callSetSerialPortIndex 1);
         doOpen oneHost; doSetter (callSetRegisterCount 200)] constructed
    = Some (setRegisterCount 200 connected)
  ∧ isOpen (setRegisterCount 200 connected) = true
  ∧ 1 ≤ m_registerCount (setRegisterCount 200 connected) ≤ 125
  ∧ 1 ≤ m_slaveAddress (setRegisterCount 200 connected) ≤ 247.
Proof.
  assert (run [doRefresh oneHost; doSetter (callSetSerialPortIndex 1);
               doOpen oneHost; doSetter (callSetRegisterCount 200)] constructed
          = Some (setRegisterCount 200 connected)) as Hreached
    by (vm_compute; reflexivity).
  assert (isOpen (setRegisterCount 200 connected) = true) as Hopen
    by (vm_compute; reflexivity).
  split; [exact configInRange_constructed |]. split; [exact Hreached |].
  split; [exact Hopen |].
  destruct (onPollTimer_request_in_range _ _ _ None configInRange_constructed
              Hreached Hopen) as (Hcount & Hslave & _).
  split; [exact Hcount | exact Hslave].
Defined.

(** X7.  A tick of the poll timer on a driver that is not open does
    nothing at all: no request, no log line, no change of state.  In
    particular every tick after [close] is silent. *)
Theorem onPollTimer_not_open :
  ∀ (sent : option QModbusReply) (s : Modbus),
    (isOpen s = false → onPollTimer sent s = s)
    ∧ onPollTimer sent (close s) = close s.
Proof.
  assert (∀ sent s, isOpen s = false → onPollTimer sent s = s) as Hskip.
  { intros sent s Hclosed. unfold onPollTimer. rewrite Hclosed.
    by destruct (m_modbusClient s). }
  intros sent s. split; [apply Hskip |].
  apply Hskip. by destruct (Disconnected_close s) as (_ & _ & Hopen).
Qed.

Lemma onPollTimer_not_open_witness :
  isOpen withOnePort = false
  ∧ onPollTimer (Some inFlight) withOnePort = withOnePort.
Proof.
  split; [reflexivity |].
  apply (proj1 (onPollTimer_not_open (Some inFlight) withOnePort)).
  reflexivity.
Defined.

(** ** More about the setters *)

(** X8.  The postcondition of the setters.  For every setter but the one
    of the function code: if the argument passes the range test of the
    setter's guard, the member holds the argument after the call (whether
    or not it held it before); if it fails the test, the call changes
    nothing at all: no member, no setting, no signal. *)
Theorem setter_postcondition :
  ∀ (c : SetterCall) (s : Modbus),
    (∀ code, c ≠ callSetFunctionCode code) →
    (inRange c s = true → stored c (call c s) = argument c)
    ∧ (inRange c s = false → call c s = s).
Proof.
  intros c s Hother.
  destruct c; cbn [inRange stored argument call];
    try (by destruct (Hother code)).
  - split; [intros _ | done]. unfold setModbusMode.
    destruct (N.eqb_spec (m_modbusMode s) mode) as [Heq | _];
      simpl; [by rewrite Heq | done].
  - unfold setSlaveAddress. rewrite <- andb_assoc.
    destruct (_ && (address <=? 247)); split; try done; intros _.
    + destruct (N.eqb_spec (m_slaveAddress s) address) as [Heq | _];
      simpl; [by rewrite Heq | done].
    + by rewrite andb_false_r.
  - split; [intros _ | done]. unfold setStartAddress.
    destruct (N.eqb_spec (m_startAddress s) address) as [Heq | _];
      simpl; [by rewrite Heq | done].
  - unfold setRegisterCount. rewrite <- andb_assoc.
    destruct (_ && (count0 <=? 125)); split; try done; intros _.
    + destruct (N.eqb_spec (m_registerCount s) count0) as [Heq | _];
      simpl; [by rewrite Heq | done].
    + by rewrite andb_false_r.
  - unfold setPollInterval.
    destruct (100 <=? interval); split; try done; intros _.
    + destruct (N.eqb_spec (m_pollInterval s) interval) as [Heq | _];
        [simpl; by rewrite Heq |].
      cbn [negb andb]. cbv zeta. by destruct (isActive _).
    + by rewrite andb_false_r.
  - split; [intros _ | done]. unfold setTcpHost.
    destruct (String.eqb_spec (m_tcpHost s) host) as [Heq | _];
      simpl; [by rewrite Heq | done].
  - split; [intros _ | done]. unfold setTcpPort.
    destruct (N.eqb_spec (m_tcpPort s) port) as [Heq | _];
      simpl; [by rewrite Heq | done].
  - unfold setSerialPortIndex. cbv zeta.
    by destruct (index <? count (serialPortList s)).
  - unfold setBaudRate.
    destruct (0 <? rate)%Z; split; try done; intros _.
    + destruct (Z.eqb_spec (m_baudRate s) rate) as [Heq | _];
      simpl; [by rewrite Heq | done].
    + by rewrite andb_false_r.
  - split.
    + intros Hlt%N.ltb_lt.
      by destruct (setParity_accepted parityIndex s Hlt) as (-> & _).
    + intros Hge%N.ltb_ge. by apply setParity_rejected.
Qed.

Lemma setter_postcondition_witness :
  (inRange (callSetSlaveAddress 247) constructed = true
   ∧ stored (callSetSlaveAddress 247) (setSlaveAddress 247 constructed)
     = VUInt 247)
  ∧ (inRange (callSetSlaveAddress 248) constructed = false
     ∧ setSlaveAddress 248 constructed = constructed)
  ∧ (inRange (callSetSlaveAddress 0) constructed = false
     ∧ setSlaveAddress 0 constructed = constructed).
Proof.
  split; [| split]; (split; [reflexivity |]).
  - apply (setter_postcondition (callSetSlaveAddress 247) constructed);
      [discriminate | reflexivity].
  - apply (setter_postcondition (callSetSlaveAddress 248) constructed);
      [discriminate | reflexivity].
  - apply (setter_postcondition (callSetSlaveAddress 0) constructed);
      [discriminate | reflexivity].
Defined.

(** X9.  A setter writes to the settings store under its own key only:
    whatever the argument, the value stored under every other key is after
    the call what it was before. *)
Theorem setter_keeps_other_settings :
  ∀ (c : SetterCall) (s : Modbus) (key : string),
    settingsKey c ≠ Some key →
    m_settings (call c s) !! key = m_settings s !! key.
Proof.
  intros c s key Hkey.
  destruct c; cbn [call settingsKey] in *.
  - unfold setModbusMode. destruct (negb _); [| done].
    simpl. apply lookup_insert_ne. congruence.
  - unfold setSlaveAddress. destruct (_ && _); [| done].
    simpl. apply lookup_insert_ne. congruence.
  - unfold setFunctionCode. destruct (negb _); [| done].
    simpl. apply lookup_insert_ne. congruence.
  - unfold setStartAddress. destruct (negb _); [| done].
    simpl. apply lookup_insert_ne. congruence.
  - unfold setRegisterCount. destruct (_ && _); [| done].
    simpl. apply lookup_insert_ne. congruence.
  - unfold setPollInterval. destruct (_ && _); [| done].
    cbv zeta. destruct (isActive _); simpl; apply lookup_insert_ne; congruence.
  - unfold setTcpHost. destruct (negb _); [| done].
    simpl. apply lookup_insert_ne. congruence.
  - unfold setTcpPort. destruct (negb _); [| done].
    simpl. apply lookup_insert_ne. congruence.
  - unfold setSerialPortIndex. cbv zeta. by destruct (_ <? _).
  - unfold setBaudRate. destruct (_ && _); [| done].
    simpl. apply lookup_insert_ne. congruence.
  - destruct (decide (parityIndex < count parityList)) as [Hlt | Hge].
    + destruct (setParity_accepted parityIndex s Hlt) as (_ & _ & -> & _).
      apply lookup_insert_ne. congruence.
    + rewrite setParity_rejected; [done | lia].
Qed.

Lemma setter_keeps_other_settings_witness :
  settingsKey (callSetTcpPort 1502) ≠ Some "Modbus_Parity"
  ∧ m_settings (setTcpPort 1502 constructed) !! "Modbus_Parity"
    = m_settings constructed !! "Modbus_Parity".
Proof.
  split; [discriminate |].
  apply (setter_keeps_other_settings (callSetTcpPort 1502) constructed).
  discriminate.
Defined.

(** X10.  No setter touches the connection: the client the driver holds,
    with its state and its connection parameters, is after every setter
    call what it was before, and so is [isOpen].  New parameters reach a
    client only through the next [open]. *)
Theorem setter_keeps_client :
  ∀ (c : SetterCall) (s : Modbus),
    m_modbusClient (call c s) = m_modbusClient s
    ∧ isOpen (call c s) = isOpen s.
Proof.
  intros c s. destruct (setter_session c s) as [Hclient _].
  split; [exact Hclient |]. unfold isOpen. by rewrite Hclient.
Qed.




Lemma registerTypeOf_fallback (functionCode : N) :
  functionCode ∉ readFunctionCodes →
  registerTypeOf functionCode = HoldingRegisters.
Proof.
  intros Hout. unfold registerTypeOf.
  repeat case_match; try done; subst; exfalso; apply Hout;
    unfold readFunctionCodes; set_solver.
Qed.

(** X12.  From the list index to the address space.  After the
    function-code setter accepted an index, a poll reads coils for index 0,
    discrete inputs for index 1, holding registers for index 2 and input
    registers for index 3; for every other accepted argument (of the 8 bits
    of the parameter's type) the stored code is none of 1..4 and a poll
    falls back to holding registers. *)
Theorem setFunctionCode_selects_register_type :
  ∀ (code : N) (s : Modbus),
    code < 256 → code ≠ m_functionCode s →
    registerTypeOf (m_functionCode (setFunctionCode code s))
    = match code with
      | 0 => Coils
      | 1 => DiscreteInputs
      | 2 => HoldingRegisters
      | 3 => InputRegisters
      | _ => HoldingRegisters
      end
    ∧ (4 ≤ code → m_functionCode (setFunctionCode code s) ∉ readFunctionCodes).
Proof.
  intros code s Hbyte Hnew. unfold setFunctionCode.
  replace (m_functionCode s =? code) with false
    by (symmetry; apply N.eqb_neq; congruence).
  cbn [negb]. cbv zeta.
  change (m_functionCode (Q_EMIT functionCodeChanged _))
    with ((code + 1) mod 256).
  destruct (decide (code < 4)) as [Hlow | Hhigh].
  - assert (code = 0 ∨ code = 1 ∨ code = 2 ∨ code = 3)
      as [-> | [-> | [-> | ->]]] by lia; (split; [done | lia]).
  - assert ((code + 1) mod 256 ∉ readFunctionCodes) as Hout.
    { assert ((code + 1) mod 256 = 0 ∨ 5 ≤ (code + 1) mod 256) as Hstored.
      { destruct (decide (code = 255)) as [-> | Hne]; [by left | right].
        rewrite N.mod_small; lia. }
      unfold readFunctionCodes. intros Hin.
      repeat (apply elem_of_cons in Hin as [Hin | Hin]; [lia |]).
      by apply elem_of_nil in Hin. }
    split; [| done]. rewrite (registerTypeOf_fallback _ Hout).
    destruct code as [| p]; [lia |].
    by repeat (destruct p as [p | p |]; try lia).
Qed.

Lemma setFunctionCode_selects_register_type_witness :
  (1 < 256 ∧ 1 ≠ m_functionCode constructed
   ∧ registerTypeOf (m_functionCode (setFunctionCode 1 constructed))
     = DiscreteInputs)
  ∧ (200 < 256 ∧ 200 ≠ m_functionCode constructed ∧ 4 ≤ 200
     ∧ registerTypeOf (m_functionCode (setFunctionCode 200 constructed))
       = HoldingRegisters
     ∧ m_functionCode (setFunctionCode 200 constructed) ∉ readFunctionCodes).
Proof.
  assert (1 ≠ m_functionCode constructed) as Hone by (by vm_compute).
  assert (200 ≠ m_functionCode constructed) as Hlarge by (by vm_compute).
  split.
  - split; [lia |]. split; [exact Hone |].
    apply (setFunctionCode_selects_register_type 1 constructed); [lia | done].
  - split; [lia |]. split; [exact Hlarge |]. split; [lia |].
    destruct (setFunctionCode_selects_register_type 200 constructed)
      as [Htype Hout]; [lia | done |].
    split; [exact Htype | apply Hout; lia].
Defined.

(** ** The port list *)

(** Filtering again with a test the first filter implies drops nothing. *)
Lemma filter_implied {A} (f g : A → bool) (l : list A) :
  (∀ x, g x = true → f x = true) →
  List.filter f (List.filter g l) = List.filter g l.
Proof.
  intros Himplied. induction l as [| x l IH]; [done |]. simpl.
  destruct (g x) eqn:Hx; [| done]. simpl.
  by rewrite (Himplied x Hx), IH.
Qed.

Lemma isValidPort_not_null (system : System) (info : QSerialPortInfo) :
  isValidPort system info = true → negb (portIsNull info) = true.
Proof. unfold isValidPort. by destruct (negb (portIsNull info)). Qed.


(** The names [refreshSerialDevices] computes. *)
Lemma refreshSerialDevices_unfold (host : Host) (s : Modbus) :
  refreshSerialDevices host s
  = if bool_decide
         (m_deviceNames s
          ≠ tr "选择串口" :: (shownName (hostSystem host) <$> validPorts host))
    then Q_EMIT availablePortsChanged
           (set_m_deviceLocations
              ("/dev/null" :: (systemLocation <$> validPorts host))
              (set_m_deviceNames
                 (tr "选择串口"
                  :: (shownName (hostSystem host) <$> validPorts host)) s))
    else s.
Proof.
  unfold refreshSerialDevices, validPorts. cbv zeta.
  by rewrite filter_implied by apply isValidPort_not_null.
Qed.



(** The name lists of the three builds: the [tty.] device and the null
    entry are dropped on macOS; the description follows the name on
    Windows. *)
Example refreshSerialDevices_names :
  m_deviceNames (refreshSerialDevices macHost constructed)
  = [tr "选择串口"; "cu.usbserial-10"]
  ∧ m_deviceNames (refreshSerialDevices winHost constructed)
    = [tr "选择串口"; "COM3  USB Serial Port"]
  ∧ m_deviceNames (refreshSerialDevices oneHost constructed)
    = [tr "选择串口"; "ttyUSB0"].
Proof. by vm_compute. Qed.

(** ** Opening a connection *)

Lemma startPolling_trace (s : Modbus) :
  ∃ added, trace (startPolling s) = trace s ++ added.
Proof.
  unfold startPolling. destruct (isActive (m_pollTimer s)); cbn [negb].
  - exists []. by rewrite app_nil_r.
  - cbv zeta. rewrite trace_effect.
    change (trace (timer_start (m_pollInterval s) s))
      with (trace s ++ [TimerStart (m_pollInterval s)]).
    eexists. by rewrite <- app_assoc.
Qed.

(** A signal of the client only adds to the trace and leaves the client's
    setup as it was. *)
Lemma deliver_client (s : Modbus) (ev : ClientEvent) (client : QModbusClient) :
  m_modbusClient s = Some client →
  (∃ client', m_modbusClient (deliver s ev) = Some client'
              ∧ clientSetup client' = clientSetup client)
  ∧ ∃ added, trace (deliver s ev) = trace s ++ added.
Proof.
  intros Hclient. unfold deliver. rewrite Hclient.
  destruct ev as [state | error text]; cbv zeta.
  - set (s1 := set_m_modbusClient (Some (setClientState state client)) s).
    destruct (clientSlotsConnected client).
    + unfold onStateChanged. repeat case_bool_decide.
      * destruct (startPolling_session s1) as (Hc & _). split.
        -- exists (setClientState state client). split; [| done].
           change (m_modbusClient (Q_EMIT configurationChanged (startPolling s1)))
             with (m_modbusClient (startPolling s1)). by rewrite Hc.
        -- destruct (startPolling_trace s1) as [added Htrace].
           rewrite trace_Q_EMIT, Htrace. eexists. by rewrite <- app_assoc.
      * destruct (stopPolling_spec s1) as (_ & Hc & added & Htrace & _). split.
        -- exists (setClientState state client). split; [| done].
           change (m_modbusClient (Q_EMIT configurationChanged (stopPolling s1)))
             with (m_modbusClient (stopPolling s1)). by rewrite Hc.
        -- rewrite trace_Q_EMIT, Htrace. eexists. by rewrite <- app_assoc.
      * split; [by eexists | exists []; by rewrite app_nil_r].
    + split; [by eexists | exists []; by rewrite app_nil_r].
  - set (s1 := set_m_modbusClient (Some (setClientError text client)) s).
    destruct (clientSlotsConnected client).
    + destruct (onErrorOccurred_session error s1) as (Hc & _). split.
      * exists (setClientError text client). by rewrite Hc.
      * unfold onErrorOccurred. cbn [m_modbusClient s1 set_m_modbusClient].
        case_bool_decide.
        -- cbv zeta. rewrite trace_Q_EMIT, trace_effect.
           eexists. by rewrite <- app_assoc.
        -- exists []. by rewrite app_nil_r.
    + split; [by eexists | exists []; by rewrite app_nil_r].
Qed.

Lemma deliver_all_client (events : list ClientEvent) (s : Modbus)
    (client : QModbusClient) :
  m_modbusClient s = Some client →
  (∃ client', m_modbusClient (foldl deliver s events) = Some client'
              ∧ clientSetup client' = clientSetup client)
  ∧ ∃ added, trace (foldl deliver s events) = trace s ++ added.
Proof.
  revert s client. induction events as [| ev events IH]; intros s client Hclient.
  - split; [by eexists | exists []; by rewrite app_nil_r].
  - destruct (deliver_client s ev client Hclient)
      as [(client1 & Hclient1 & Hsetup1) [added1 Htrace1]].
    destruct (IH _ _ Hclient1) as [(client2 & Hclient2 & Hsetup2) [added2 Htrace2]].
    simpl. split.
    + exists client2. split; [done | congruence].
    + exists (added1 ++ added2). by rewrite Htrace2, Htrace1, <- app_assoc.
Qed.

(** The parameters [open] reads are those of the driver before the initial
    [close]. *)
Lemma close_parameters (s : Modbus) :
  m_modbusMode (close s) = m_modbusMode s
  ∧ m_tcpHost (close s) = m_tcpHost s
  ∧ m_tcpPort (close s) = m_tcpPort s
  ∧ m_serialPortIndex (close s) = m_serialPortIndex s
  ∧ m_baudRate (close s) = m_baudRate s
  ∧ m_parity (close s) = m_parity s
  ∧ serialPortList (close s) = serialPortList s.
Proof.
  pose proof (configuration_close s) as Hsame. unfold configuration in Hsame.
  repeat split; try (by injection Hsame).
  unfold serialPortList.
  by replace (m_deviceNames (close s)) with (m_deviceNames s)
    by (symmetry; by injection Hsame).
Qed.

(** [open] once a client was created: the slots are connected, the
    connection is attempted, and a failure is shown and cleaned up. *)
Lemma open_with_client (host : Host) (s s1 : Modbus) (client : QModbusClient) :
  open_create host (close s) = FallThrough s1 →
  m_modbusClient s1 = Some client →
  ∃ s3 client3 added,
    m_modbusClient s3 = Some client3
    ∧ clientSetup client3 = clientSetup client
    ∧ trace s3
      = trace s1 ++ ConnectDevice (setSlotsConnected true client) :: added
    ∧ open host s
      = if connectDeviceOk host then Some (true, s3)
        else Some (false,
                   close (effect (showMessageBox (tr "Modbus连接失败")
                                    (clientErrorString client3) Critical) s3)).
Proof.
  intros Hcreate Hclient. unfold open. cbv zeta. rewrite Hcreate, Hclient.
  unfold connectDevice. cbn [m_modbusClient set_m_modbusClient].
  set (s2 := effect (ConnectDevice (setSlotsConnected true client))
               (set_m_modbusClient (Some (setSlotsConnected true client)) s1)).
  destruct (deliver_all_client (connectDeviceEvents host) s2
              (setSlotsConnected true client) eq_refl)
    as [(client3 & Hclient3 & Hsetup) [added Htrace]].
  exists (foldl deliver s2 (connectDeviceEvents host)), client3, added.
  split; [exact Hclient3 |]. split; [exact Hsetup |]. split.
  { rewrite Htrace. unfold s2. rewrite trace_effect. by rewrite <- app_assoc. }
  rewrite Hclient3. by destruct (connectDeviceOk host).
Qed.

(** X14.  [open] in TCP mode.  Whatever the host string is (it is not
    tested, so an empty one, for which [configurationOk] is false, is used
    as it is), [open] creates a TCP client set up with the stored host and
    port, a timeout of 3000 ms and 3 retries, connects its signals and
    calls [connectDevice].  If that succeeds, [open] returns true and the
    driver holds the client.  If it fails, [open] shows the client's error
    text in a critical message box, closes, and returns false. *)
Theorem open_tcp :
  ∀ (host : Host) (s : Modbus),
    m_modbusMode s = TCP →
    ∃ (s3 : Modbus) (client attempted : QModbusClient) (added : list Effect),
      clientSetup attempted
      = (TcpClient,
         [(NetworkAddressParameter, VString (m_tcpHost s));
          (NetworkPortParameter, VUInt (m_tcpPort s))], 3000, 3)
      ∧ clientSlotsConnected attempted = true
      ∧ trace s3 = trace (close s) ++ ConnectDevice attempted :: added
      ∧ m_modbusClient s3 = Some client
      ∧ clientSetup client = clientSetup attempted
      ∧ open host s
        = if connectDeviceOk host then Some (true, s3)
          else Some (false,
                     close (effect (showMessageBox (tr "Modbus连接失败")
                                      (clientErrorString client) Critical)
                              s3)).
Proof.
  intros host s Hmode.
  destruct (close_parameters s) as (Hmode' & Hhost & Hport & _).
  set (tcpClient :=
         setNumberOfRetries 3
           (setTimeout 3000
              (setConnectionParameter NetworkPortParameter
                 (VUInt (m_tcpPort s))
                 (setConnectionParameter NetworkAddressParameter
                    (VString (m_tcpHost s)) (newClient TcpClient))))).
  assert (open_create host (close s)
          = FallThrough (set_m_modbusClient (Some tcpClient) (close s)))
    as Hcreate.
  { unfold open_create. rewrite Hmode', Hmode, Hhost, Hport. done. }
  destruct (open_with_client host s _ tcpClient Hcreate eq_refl)
    as (s3 & client & added & Hclient & Hsetup & Htrace & Hopen).
  exists s3, client, (setSlotsConnected true tcpClient), added.
  by repeat split.
Qed.

Lemma open_tcp_witness :
  m_modbusMode (setTcpHost "" (setModbusMode TCP constructed)) = TCP
  ∧ configurationOk (setTcpHost "" (setModbusMode TCP constructed)) = false
  ∧ ∃ (s3 : Modbus) (client attempted : QModbusClient) (added : list Effect),
      clientSetup attempted
      = (TcpClient,
         [(NetworkAddressParameter,
           VString (m_tcpHost (setTcpHost "" (setModbusMode TCP constructed))));
          (NetworkPortParameter,
           VUInt (m_tcpPort (setTcpHost "" (setModbusMode TCP constructed))))],
         3000, 3)
      ∧ clientSlotsConnected attempted = true
      ∧ trace s3
        = trace (close (setTcpHost "" (setModbusMode TCP constructed)))
          ++ ConnectDevice attempted :: added
      ∧ m_modbusClient s3 = Some client
      ∧ clientSetup client = clientSetup attempted
      ∧ open oneHost (setTcpHost "" (setModbusMode TCP constructed))
        = if connectDeviceOk oneHost then Some (true, s3)
          else Some (false,
                     close (effect (showMessageBox (tr "Modbus连接失败")
                                      (clientErrorString client) Critical)
                              s3)).
Proof.
  split; [reflexivity |]. split; [reflexivity |].
  apply (open_tcp oneHost (setTcpHost "" (setModbusMode TCP constructed))).
  reflexivity.
Defined.

(** X15.  [open] in RTU mode with a selected port.  When the stored index
    is at least 1 and below the length of the port list, and the machine
    has a valid port at that index less one, [open] creates a serial client
    set up with that port's name, the stored baud rate, the stored parity,
    8 data bits, 1 stop bit, a timeout of 1000 ms and 3 retries, connects
    its signals and calls [connectDevice]; it returns true if that
    succeeds, and otherwise shows the client's error text in a critical
    message box, closes, and returns false. *)
Theorem open_rtu :
  ∀ (host : Host) (s : Modbus) (port : QSerialPortInfo),
    m_modbusMode s = RTU →
    1 ≤ m_serialPortIndex s →
    m_serialPortIndex s < count (serialPortList s) →
    validPorts host !! N.to_nat (m_serialPortIndex s - 1) = Some port →
    ∃ (s3 : Modbus) (client attempted : QModbusClient) (added : list Effect),
      clientSetup attempted
      = (RtuSerialClient,
         [(SerialPortNameParameter, VString (portName port));
          (SerialBaudRateParameter, VInt (m_baudRate s));
          (SerialParityParameter, VInt (parity_int (m_parity s)));
          (SerialDataBitsParameter, VInt 8);
          (SerialStopBitsParameter, VInt 1)], 1000, 3)
      ∧ clientSlotsConnected attempted = true
      ∧ trace s3 = trace (close s) ++ ConnectDevice attempted :: added
      ∧ m_modbusClient s3 = Some client
      ∧ clientSetup client = clientSetup attempted
      ∧ open host s
        = if connectDeviceOk host then Some (true, s3)
          else Some (false,
                     close (effect (showMessageBox (tr "Modbus连接失败")
                                      (clientErrorString client) Critical)
                              s3)).
Proof.
  intros host s port Hmode Hlow Hhigh Hport.
  destruct (close_parameters s)
    as (Hmode' & _ & _ & Hindex & Hbaud & Hparity & Hlist).
  set (rtuClient :=
         setNumberOfRetries 3
           (setTimeout 1000
              (setConnectionParameter SerialStopBitsParameter (VInt OneStop)
                 (setConnectionParameter SerialDataBitsParameter (VInt Data8)
                    (setConnectionParameter SerialParityParameter
                       (VInt (parity_int (m_parity s)))
                       (setConnectionParameter SerialBaudRateParameter
                          (VInt (m_baudRate s))
                          (setConnectionParameter SerialPortNameParameter
                             (VString (portName port))
                             (newClient RtuSerialClient)))))))).
  assert (open_create host (close s)
          = FallThrough (set_m_modbusClient (Some rtuClient) (close s)))
    as Hcreate.
  { unfold open_create. rewrite Hmode', Hmode, Hlist. cbn [N.eqb RTU].
    cbv zeta. cbn [m_serialPortIndex m_baudRate m_parity set_m_modbusClient].
    rewrite Hindex, Hbaud, Hparity, Hport.
    replace ((1 <=? m_serialPortIndex s)
             && (m_serialPortIndex s <? count (serialPortList s))) with true.
    - done.
    - symmetry. apply andb_true_iff. split; [by apply N.leb_le | by apply N.ltb_lt]. }
  destruct (open_with_client host s _ rtuClient Hcreate eq_refl)
    as (s3 & client & added & Hclient & Hsetup & Htrace & Hopen).
  exists s3, client, (setSlotsConnected true rtuClient), added.
  by repeat split.
Qed.

Lemma open_rtu_witness :
  m_modbusMode (setSerialPortIndex 1 withOnePort) = RTU
  ∧ 1 ≤ m_serialPortIndex (setSerialPortIndex 1 withOnePort)
  ∧ m_serialPortIndex (setSerialPortIndex 1 withOnePort)
    < count (serialPortList (setSerialPortIndex 1 withOnePort))
  ∧ validPorts oneHost
    !! N.to_nat (m_serialPortIndex (setSerialPortIndex 1 withOnePort) - 1)
    = Some onePort
  ∧ ∃ (s3 : Modbus) (client attempted : QModbusClient) (added : list Effect),
      clientSetup attempted
      = (RtuSerialClient,
         [(SerialPortNameParameter, VString (portName onePort));
          (SerialBaudRateParameter,
           VInt (m_baudRate (setSerialPortIndex 1 withOnePort)));
          (SerialParityParameter,
           VInt (parity_int (m_parity (setSerialPortIndex 1 withOnePort))));
          (SerialDataBitsParameter, VInt 8);
          (SerialStopBitsParameter, VInt 1)], 1000, 3)
      ∧ clientSlotsConnected attempted = true
      ∧ trace s3
        = trace (close (setSerialPortIndex 1 withOnePort))
          ++ ConnectDevice attempted :: added
      ∧ m_modbusClient s3 = Some client
      ∧ clientSetup client = clientSetup attempted
      ∧ open oneHost (setSerialPortIndex 1 withOnePort)
        = if connectDeviceOk oneHost then Some (true, s3)
          else Some (false,
                     close (effect (showMessageBox (tr "Modbus连接失败")
                                      (clientErrorString client) Critical)
                              s3)).
Proof.
  split; [reflexivity |]. split; [by vm_compute |]. split; [by vm_compute |].
  split; [reflexivity |].
  apply (open_rtu oneHost (setSerialPortIndex 1 withOnePort) onePort);
    [reflexivity | by vm_compute | by vm_compute | reflexivity].
Defined.

Lemma open_create_OutOfRange (host : Host) (s : Modbus) :
  open_create host s = OutOfRange ↔
  m_modbusMode s = RTU
  ∧ 1 ≤ m_serialPortIndex s
  ∧ m_serialPortIndex s < count (serialPortList s)
  ∧ count (validPorts host) < m_serialPortIndex s.
Proof.
  unfold open_create.
  destruct (N.eqb_spec (m_modbusMode s) RTU) as [Hmode | Hmode].
  - cbv zeta. cbn [m_serialPortIndex set_m_modbusClient].
    destruct (N.leb_spec 1 (m_serialPortIndex s)) as [Hlow | Hlow];
      [| split; [done | lia]].
    destruct (N.ltb_spec (m_serialPortIndex s) (count (serialPortList s)))
      as [Hhigh | Hhigh]; [| split; [done | lia]].
    cbn [andb].
    destruct (validPorts host !! N.to_nat (m_serialPortIndex s - 1))
      as [port |] eqn:Hport.
    + apply lookup_lt_Some in Hport. split; [done |].
      unfold count. lia.
    + apply lookup_ge_None in Hport. split; [intros _ | done].
      unfold count. repeat split; try done. lia.
  - destruct (m_modbusMode s =? TCP); split; try done; by intros [? _].
Qed.

Lemma open_None (host : Host) (s : Modbus) :
  open host s = None ↔ open_create host (close s) = OutOfRange.
Proof.
  unfold open. cbv zeta.
  destruct (open_create host (close s)) as [s1 | result1 s1 |];
    [| done | done].
  destruct (m_modbusClient s1) as [client |]; [| done].
  destruct (connectDevice host _) as [ok s3]. by destruct (negb ok).
Qed.

(** X16.  The port list [open] checks the index against is the one cached
    by the last refresh, while the port it then takes comes from a fresh
    enumeration.  [open] has no defined result (it calls [QList::at] with
    an index past the end of the list) exactly when the driver is in RTU
    mode, the stored index is at least 1 and below the length of the cached
    port list, and the machine's valid ports are by now fewer than the
    index.  Right after a refresh against the same ports this cannot
    happen: [open] returns. *)
Theorem open_rtu_port_lookup :
  ∀ (host : Host) (s : Modbus),
    (open host s = None ↔
     m_modbusMode s = RTU
     ∧ 1 ≤ m_serialPortIndex s
     ∧ m_serialPortIndex s < count (serialPortList s)
     ∧ count (validPorts host) < m_serialPortIndex s)
    ∧ is_Some (open host (refreshSerialDevices host s)).
Proof.
  assert (∀ host s,
            open host s = None ↔
            m_modbusMode s = RTU
            ∧ 1 ≤ m_serialPortIndex s
            ∧ m_serialPortIndex s < count (serialPortList s)
            ∧ count (validPorts host) < m_serialPortIndex s) as Hnone.
  { intros host s. rewrite open_None, open_create_OutOfRange.
    destruct (close_parameters s) as (-> & _ & _ & -> & _ & _ & ->). done. }
  intros host s. split; [apply Hnone |].
  destruct (open host (refreshSerialDevices host s)) as [outcome |] eqn:Hopen;
    [done |].
  apply Hnone in Hopen as (_ & _ & Hhigh & Hstale). exfalso.
  assert (count (serialPortList (refreshSerialDevices host s))
          = 1 + count (validPorts host)) as Hcount.
  { rewrite refreshSerialDevices_unfold. unfold serialPortList, count.
    case_bool_decide as Hchanged; simpl.
    - rewrite length_fmap. lia.
    - rewrite Hchanged. simpl. rewrite length_fmap. lia. }
  lia.
Qed.

Lemma open_rtu_port_lookup_witness :
  (m_modbusMode (setSerialPortIndex 1 withOnePort) = RTU
   ∧ 1 ≤ m_serialPortIndex (setSerialPortIndex 1 withOnePort)
   ∧ m_serialPortIndex (setSerialPortIndex 1 withOnePort)
     < count (serialPortList (setSerialPortIndex 1 withOnePort))
   ∧ count (validPorts {| hostSystem := OtherSystem; availablePorts := [];
                          connectDeviceOk := true;
                          connectDeviceEvents := [] |})
     < m_serialPortIndex (setSerialPortIndex 1 withOnePort))
  ∧ open {| hostSystem := OtherSystem; availablePorts := [];
                          connectDeviceOk := true;
            connectDeviceEvents := [] |} (setSerialPortIndex 1 withOnePort)
    = None.
Proof.
  assert (m_modbusMode (setSerialPortIndex 1 withOnePort) = RTU
          ∧ 1 ≤ m_serialPortIndex (setSerialPortIndex 1 withOnePort)
          ∧ m_serialPortIndex (setSerialPortIndex 1 withOnePort)
            < count (serialPortList (setSerialPortIndex 1 withOnePort))
          ∧ count (validPorts {| hostSystem := OtherSystem; availablePorts := [];
                          connectDeviceOk := true;
                                 connectDeviceEvents := [] |})
            < m_serialPortIndex (setSerialPortIndex 1 withOnePort)) as Hstale
    by (repeat split; by vm_compute).
  split; [exact Hstale |].
  by apply (proj1 (open_rtu_port_lookup _ (setSerialPortIndex 1 withOnePort))).
Defined.

(** X17.  The mode setter accepts every value, and a mode that is neither
    RTU nor TCP makes [open] fail silently: after the initial [close] it
    creates no client, shows no message, and returns false.
    [configurationOk] treats such a mode as TCP, so it answers true for a
    non-empty host although [open] cannot succeed. *)
Theorem open_unknown_mode :
  ∀ (host : Host) (s : Modbus) (mode : N),
    2 ≤ mode →
    m_modbusMode (setModbusMode mode s) = mode
    ∧ open host (setModbusMode mode s)
      = Some (false, close (setModbusMode mode s))
    ∧ configurationOk (setModbusMode mode s)
      = negb (String.eqb (m_tcpHost s) "").
Proof.
  intros host s mode Hmode.
  assert (m_modbusMode (setModbusMode mode s) = mode
          ∧ m_tcpHost (setModbusMode mode s) = m_tcpHost s) as [Hstored Hhost].
  { unfold setModbusMode.
    destruct (N.eqb_spec (m_modbusMode s) mode) as [Heq | _]; done. }
  set (s' := setModbusMode mode s) in *.
  assert ((mode =? RTU) = false ∧ (mode =? TCP) = false) as [Hrtu Htcp]
    by (split; apply N.eqb_neq; unfold RTU, TCP; lia).
  split; [exact Hstored |]. split.
  - destruct (close_parameters s') as (Hmode' & _).
    destruct (close_spec s') as (Hclient & _).
    unfold open, open_create. cbv zeta.
    by rewrite Hmode', Hstored, Hrtu, Htcp, Hclient.
  - unfold configurationOk. by rewrite Hstored, Hrtu, Hhost.
Qed.

Lemma open_unknown_mode_witness :
  2 ≤ 7
  ∧ m_modbusMode (setModbusMode 7 constructed) = 7
  ∧ open oneHost (setModbusMode 7 constructed)
    = Some (false, close (setModbusMode 7 constructed))
  ∧ configurationOk (setModbusMode 7 constructed)
    = negb (String.eqb (m_tcpHost constructed) "").
Proof.
  split; [lia |]. apply (open_unknown_mode oneHost constructed 7). lia.
Defined.

(** ** Signals of the client *)

(** X18.  An error of the client.  When the held client, its signals
    connected, reports an error other than [NoError], the driver logs a
    warning and raises [connectionError], both with the client's new error
    text; with [NoError] it does nothing.  In either case the driver
    neither closes nor stops polling: the client stays held in the state it
    was in, and the timer is left alone. *)
Theorem deliver_errorOccurred :
  ∀ (s : Modbus) (client : QModbusClient) (error : DeviceError)
    (text : string),
    m_modbusClient s = Some client →
    clientSlotsConnected client = true →
    let s' := deliver s (errorOccurred error text) in
    m_modbusClient s' = Some (setClientError text client)
    ∧ isOpen s' = isOpen s
    ∧ m_pollTimer s' = m_pollTimer s
    ∧ trace s'
      = trace s
        ++ (if bool_decide (error ≠ NoError)
            then [qWarning ["Modbus error:"; text];
                  Emit (connectionError text)]
            else []).
Proof.
  intros s client error text Hclient Hwired. cbv zeta.
  unfold deliver. rewrite Hclient, Hwired.
  unfold onErrorOccurred. cbn [m_modbusClient set_m_modbusClient].
  unfold isOpen. rewrite Hclient.
  case_bool_decide; cbv zeta.
  - repeat split. rewrite trace_Q_EMIT, trace_effect. by rewrite <- app_assoc.
  - repeat split. by rewrite app_nil_r.
Qed.

Lemma deliver_errorOccurred_witness :
  ∃ client,
    m_modbusClient connected = Some client
    ∧ clientSlotsConnected client = true
    ∧ m_modbusClient
        (deliver connected (errorOccurred TimeoutError "Request timeout."))
      = Some (setClientError "Request timeout." client)
    ∧ trace (deliver connected (errorOccurred TimeoutError "Request timeout."))
      = trace connected
        ++ (if bool_decide (TimeoutError ≠ NoError)
            then [qWarning ["Modbus error:"; "Request timeout."];
                  Emit (connectionError "Request timeout.")]
            else []).
Proof.
  destruct (m_modbusClient connected) as [client |] eqn:Hclient;
    [| by vm_compute in Hclient].
  assert (clientSlotsConnected client = true) as Hwired.
  { apply (f_equal (fmap clientSlotsConnected)) in Hclient.
    vm_compute in Hclient. injection Hclient as Hflag. symmetry. exact Hflag. }
  exists client. split; [reflexivity |]. split; [exact Hwired |].
  destruct (deliver_errorOccurred connected client TimeoutError
              "Request timeout." Hclient Hwired) as (Hheld & _ & _ & Htrace).
  split; [exact Hheld | exact Htrace].
Defined.

(** X19.  A change of the client's state.  When the held client, its
    signals connected, enters the connected state, the driver is open and
    the poll timer runs: a stopped timer is started with the configured
    poll interval, a running one is left as it is.  When the client enters
    the unconnected state, the driver is not open and the timer is
    stopped.  Both raise [configurationChanged].  The connecting and
    closing states leave timer and trace alone, so a timer that was running
    keeps ticking on a driver that is no longer open. *)
Theorem deliver_stateChanged :
  ∀ (s : Modbus) (client : QModbusClient) (state : DeviceState),
    m_modbusClient s = Some client →
    clientSlotsConnected client = true →
    let s' := deliver s (stateChanged state) in
    m_modbusClient s' = Some (setClientState state client)
    ∧ isOpen s' = bool_decide (state = ConnectedState)
    ∧ match state with
      | ConnectedState =>
          isActive (m_pollTimer s') = true
          ∧ (isActive (m_pollTimer s) = false →
             timerInterval (m_pollTimer s') = m_pollInterval s)
          ∧ (isActive (m_pollTimer s) = true → m_pollTimer s' = m_pollTimer s)
          ∧ last (trace s') = Some (Emit configurationChanged)
      | UnconnectedState =>
          isActive (m_pollTimer s') = false
          ∧ last (trace s') = Some (Emit configurationChanged)
      | ConnectingState | ClosingState =>
          m_pollTimer s' = m_pollTimer s ∧ trace s' = trace s
      end.
Proof.
  intros s client state Hclient Hwired. cbv zeta.
  unfold deliver. rewrite Hclient, Hwired.
  set (s1 := set_m_modbusClient (Some (setClientState state client)) s).
  assert (m_modbusClient (onStateChanged state s1)
          = Some (setClientState state client)) as Hheld.
  { unfold onStateChanged. repeat case_bool_decide; [| | done].
    - change (m_modbusClient (Q_EMIT configurationChanged (startPolling s1)))
        with (m_modbusClient (startPolling s1)).
      by destruct (startPolling_session s1) as (-> & _).
    - change (m_modbusClient (Q_EMIT configurationChanged (stopPolling s1)))
        with (m_modbusClient (stopPolling s1)).
      by destruct (stopPolling_spec s1) as (_ & -> & _). }
  split; [exact Hheld |]. split.
  { unfold isOpen. rewrite Hheld. by destruct state. }
  destruct state; unfold onStateChanged;
    repeat case_bool_decide; try done; cbv zeta.
  - destruct (stopPolling_spec s1) as (Hstopped & _).
    split; [exact Hstopped |]. rewrite trace_Q_EMIT. apply last_snoc.
  - destruct (startPolling_session s1) as (_ & Hpoll & Hactive & Hsync).
    split; [exact Hactive |]. split; [| split].
    + intros Hinactive.
      change (m_pollTimer (Q_EMIT configurationChanged (startPolling s1)))
        with (m_pollTimer (startPolling s1)).
      unfold timerInSync in Hsync. rewrite Hsync; [exact Hpoll | | exact Hactive].
      change (m_pollTimer s1) with (m_pollTimer s). by rewrite Hinactive.
    + intros Hrunning. unfold startPolling.
      change (m_pollTimer s1) with (m_pollTimer s). by rewrite Hrunning.
    + rewrite trace_Q_EMIT. apply last_snoc.
Qed.

Lemma deliver_stateChanged_witness :
  ∃ client,
    m_modbusClient connected = Some client
    ∧ clientSlotsConnected client = true
    ∧ m_modbusClient (deliver connected (stateChanged UnconnectedState))
      = Some (setClientState UnconnectedState client)
    ∧ isOpen (deliver connected (stateChanged UnconnectedState))
      = bool_decide (UnconnectedState = ConnectedState)
    ∧ isActive (m_pollTimer (deliver connected (stateChanged UnconnectedState)))
      = false.
Proof.
  destruct (m_modbusClient connected) as [client |] eqn:Hclient;
    [| by vm_compute in Hclient].
  assert (clientSlotsConnected client = true) as Hwired.
  { apply (f_equal (fmap clientSlotsConnected)) in Hclient.
    vm_compute in Hclient. injection Hclient as Hflag. symmetry. exact Hflag. }
  exists client. split; [reflexivity |]. split; [exact Hwired |].
  destruct (deliver_stateChanged connected client UnconnectedState
              Hclient Hwired) as (Hheld & Hopen & Hstopped & _).
  split; [exact Hheld |]. split; [exact Hopen | exact Hstopped].
Defined.

(** ** The shape of a frame *)

Lemma occurrences_comma_join (parts : list string) :
  Forall (λ t, Formatter.occurrences "," t = 0%nat) parts →
  Formatter.occurrences "," (Formatter.join "," parts)
  = Nat.pred (length parts).
Proof.
  unfold Formatter.join.
  induction 1 as [| t parts Ht _ IH]; [done |].
  destruct parts as [| u parts]; [simpl in *; lia |].
  change (String.concat "," (t :: u :: parts))
    with (t +:+ String "," (String.concat "," (u :: parts))).
  rewrite occurrences_app, Ht. cbn [Formatter.occurrences].
  rewrite IH. by rewrite Ascii.eqb_refl.
Qed.

(** X20.  The shape of a frame.  A frame of n values has n - 1 commas,
    whatever the values are.  In particular an empty reply is formatted as
    a bare line feed, which does not read back as a sequence of values: its
    only field is empty. *)
Theorem formatModbusData_shape :
  ∀ data : QModbusDataUnit,
    Formatter.occurrences "," (Formatter.formatModbusData data)
    = Nat.pred (length (values data))
    ∧ (values data = [] →
       Formatter.formatModbusData data = String Formatter.LF ""
       ∧ readFrame (Formatter.formatModbusData data) = None).
Proof.
  intros data. rewrite formatModbusData_join. split.
  - rewrite occurrences_app, occurrences_comma_join.
    + rewrite length_fmap. simpl. lia.
    + apply Forall_fmap, Forall_forall. intros v _.
      apply occurrences_digits; [done | apply QString_number_digits].
  - by intros ->.
Qed.

Lemma formatModbusData_shape_witness :
  values (replyResult timedOut) = []
  ∧ Formatter.formatModbusData (replyResult timedOut) = String Formatter.LF ""
  ∧ readFrame (Formatter.formatModbusData (replyResult timedOut)) = None.
Proof.
  split; [reflexivity |].
  apply (formatModbusData_shape (replyResult timedOut)). reflexivity.
Defined.
